(** * mcp-epsilla: the rate-limited tool dispatcher of [src/server.py]

    A shallow embedding of the server module: the start-up configuration
    (lines 27-38), the [rate_limit] decorator (lines 64-94), the tool catalog
    [list_tools] (lines 111-131) and the dispatcher [call_tool]
    (lines 134-171).

    Conventions.
    - Time is an integer number of microseconds, the resolution of
      [datetime]; a period of [1.0] second is [1000000].
    - A Python [str] is a [string] whose characters are code points
      below 256.
    - The remote vector-database client, the clock and the process
      environment are inputs: what they answer during one invocation is
      gathered in a record, and what the code does to them is recorded in
      a trace of events. *)

From Stdlib Require Import ZArith List String Ascii Bool Lia DecimalString.
Import ListNotations.

#[local] Open Scope string_scope.
#[local] Open Scope Z_scope.
#[local] Set Warnings "-register-all".

(* ------------------------------------------------------------------ *)
(** ** Python values and exceptions *)

(** The values that travel through the dispatcher: the argument bag of a
    tool call, the name handed to the remote service, and what the remote
    service answers.  [PFloat] carries the literal that [float.__repr__]
    prints; [PObj] is any other object, known by its class name and by
    what [str] returns for it. *)
Inductive pyval : Type :=
| PNone
| PBool (b : bool)
| PInt (z : Z)
| PFloat (lit : string)
| PStr (s : string)
| PList (l : list pyval)
| PTuple (l : list pyval)
| PDict (items : list (pyval * pyval))
| PObj (cls : string) (str_ : string).

(** An instance of [Exception]: its class name and what [str(e)] returns.
    [KeyboardInterrupt] and [SystemExit], which derive from
    [BaseException] only, are not instances; the module [Signals] below
    adds them. *)
Record exn : Type := { exn_class : string; exn_str : string }.

Definition ValueError (m : string) : exn := {| exn_class := "ValueError"; exn_str := m |}.
Definition TypeError (m : string) : exn := {| exn_class := "TypeError"; exn_str := m |}.
Definition KeyError (m : string) : exn := {| exn_class := "KeyError"; exn_str := m |}.

(** The outcome of an operation that may raise. *)
Definition outcome (A : Type) : Type := (exn + A)%type.

Notation "'let?' x ':=' c 'in' k" :=
  (match c with inl e => inl e | inr x => k end)
  (at level 10, x name, c at level 100, k at level 200).

(** [isinstance(arguments, dict)] *)
Definition isinstance_dict (v : pyval) : bool :=
  match v with PDict _ => true | _ => false end.

(** [key == k] for a [str] key: only a [str] with the same characters is
    equal to it. *)
Definition str_key_eq (key : string) (k : pyval) : bool :=
  match k with PStr s => String.eqb key s | _ => false end.

(** [key in d] for a dict [d]. *)
Definition dict_contains (key : string) (v : pyval) : bool :=
  match v with
  | PDict items => existsb (fun kv => str_key_eq key (fst kv)) items
  | _ => false
  end.

(** [type(v).__name__] *)
Definition class_name (v : pyval) : string :=
  match v with
  | PNone => "NoneType"
  | PBool _ => "bool"
  | PInt _ => "int"
  | PFloat _ => "float"
  | PStr _ => "str"
  | PList _ => "list"
  | PTuple _ => "tuple"
  | PDict _ => "dict"
  | PObj cls _ => cls
  end.

Definition quote1 (s : string) : string := "'" ++ s ++ "'".

(** [v[key]] for a [str] key.  On a dict: the value bound to the key,
    [KeyError] otherwise (a dict holds a key once; a list of items that
    repeats one is read at its first binding).  On anything else the
    subscript is a [TypeError]. *)
Definition getitem (v : pyval) (key : string) : outcome pyval :=
  match v with
  | PDict items =>
      match find (fun kv => str_key_eq key (fst kv)) items with
      | Some kv => inr (snd kv)
      | None => inl (KeyError (quote1 key))
      end
  | PStr _ => inl (TypeError "string indices must be integers, not 'str'")
  | PList _ => inl (TypeError "list indices must be integers or slices, not str")
  | PTuple _ => inl (TypeError "tuple indices must be integers or slices, not str")
  | _ => inl (TypeError (quote1 (class_name v) ++ " object is not subscriptable"))
  end.

(* ------------------------------------------------------------------ *)
(** ** [json.dumps(result, indent=2, default=str)] *)

Module Json.

Definition dquote : string := String (ascii_of_nat 34) EmptyString.
Definition newline : string := String (ascii_of_nat 10) EmptyString.
Definition backslash : string := String (ascii_of_nat 92) EmptyString.

Definition hex_digit (n : nat) : string :=
  match n with
  | 0 => "0" | 1 => "1" | 2 => "2" | 3 => "3" | 4 => "4" | 5 => "5"
  | 6 => "6" | 7 => "7" | 8 => "8" | 9 => "9" | 10 => "a" | 11 => "b"
  | 12 => "c" | 13 => "d" | 14 => "e" | _ => "f"
  end%nat.

(** One character under [ensure_ascii]: the two-character escapes, a
    [\u00xx] escape for every other character outside [' '..'~'], and
    the character itself otherwise. *)
Definition escape_char (c : ascii) : string :=
  let n := nat_of_ascii c in
  if Nat.eqb n 34 then backslash ++ dquote
  else if Nat.eqb n 92 then backslash ++ backslash
  else if Nat.eqb n 8 then backslash ++ "b"
  else if Nat.eqb n 12 then backslash ++ "f"
  else if Nat.eqb n 10 then backslash ++ "n"
  else if Nat.eqb n 13 then backslash ++ "r"
  else if Nat.eqb n 9 then backslash ++ "t"
  else if (Nat.ltb n 32 || Nat.ltb 126 n)%bool
       then backslash ++ "u00" ++ hex_digit (Nat.div n 16) ++ hex_digit (Nat.modulo n 16)
  else String c EmptyString.

Fixpoint escape (s : string) : string :=
  match s with
  | EmptyString => EmptyString
  | String c r => escape_char c ++ escape r
  end.

(** [encode_basestring_ascii] *)
Definition encode_str (s : string) : string := dquote ++ escape s ++ dquote.

(** [int.__repr__]: the decimal digits, refused with a [ValueError] when
    there are more than 4300 of them (the interpreter's limit on the
    conversion of an [int] to text). *)
Definition intstr (z : Z) : outcome string :=
  if Nat.ltb 4300 (String.length (NilZero.string_of_int (Z.to_int (Z.abs z))))
  then inl (ValueError
              ("Exceeds the limit (4300 digits) for integer string conversion; "
               ++ "use sys.set_int_max_str_digits() to increase the limit"))
  else inr (NilZero.string_of_int (Z.to_int z)).

(** [floatstr]: [float.__repr__], but for the floats that are no
    numbers, which are written [NaN], [Infinity] and [-Infinity]. *)
Definition floatstr (lit : string) : string :=
  if String.eqb lit "nan" then "NaN"
  else if String.eqb lit "inf" then "Infinity"
  else if String.eqb lit "-inf" then "-Infinity"
  else lit.

Fixpoint spaces (n : nat) : string :=
  match n with O => EmptyString | S k => " " ++ spaces k end.

(** ['\n' + indent * level] with [indent = 2]. *)
Definition newline_indent (level : nat) : string := newline ++ spaces (2 * level).

(** The text a dict key is written as; other keys are refused. *)
Definition key_text (k : pyval) : outcome string :=
  match k with
  | PStr s => inr s
  | PFloat lit => inr (floatstr lit)
  | PBool true => inr "true"
  | PBool false => inr "false"
  | PNone => inr "null"
  | PInt z => intstr z
  | _ => inl (TypeError ("keys must be str, int, float, bool or None, not "
                         ++ class_name k))
  end.

(** The encoder at nesting depth [level]; an object of no JSON type goes
    through [default=str] and is written as a string. *)
Fixpoint encode (level : nat) (o : pyval) {struct o} : outcome string :=
  let seq :=
    fix seq (l : list pyval) (first : bool) {struct l} : outcome string :=
      match l with
      | [] => inr EmptyString
      | v :: r =>
          let? s := encode (S level) v in
          let? rest := seq r false in
          inr ((if first then EmptyString else "," ++ newline_indent (S level))
                 ++ s ++ rest)
      end in
  match o with
  | PStr s => inr (encode_str s)
  | PNone => inr "null"
  | PBool true => inr "true"
  | PBool false => inr "false"
  | PInt z => intstr z
  | PFloat lit => inr (floatstr lit)
  | PList [] | PTuple [] => inr "[]"
  | PList l | PTuple l =>
      let? body := seq l true in
      inr ("[" ++ newline_indent (S level) ++ body ++ newline_indent level ++ "]")
  | PDict [] => inr "{}"
  | PDict items =>
      let? body :=
        (fix members (l : list (pyval * pyval)) (first : bool) {struct l}
           : outcome string :=
           match l with
           | [] => inr EmptyString
           | (k, v) :: r =>
               let? key := key_text k in
               let? s := encode (S level) v in
               let? rest := members r false in
               inr ((if first then EmptyString else "," ++ newline_indent (S level))
                      ++ encode_str key ++ ": " ++ s ++ rest)
           end) items true in
      inr ("{" ++ newline_indent (S level) ++ body ++ newline_indent level ++ "}")
  | PObj _ str_ => inr (encode_str str_)
  end.

Definition dumps (o : pyval) : outcome string := encode 0 o.

End Json.

(* ------------------------------------------------------------------ *)
(** ** The world of one server process *)

(** What the code does to the outside, in the order it does it. *)
Inductive event : Type :=
| EvSleep (wait_time : Z)           (* [await asyncio.sleep(wait_time)] *)
| EvListTables                      (* [db_client.list_tables()] *)
| EvCreateTable (name : pyval)      (* [db_client.create_table(name=...)] *)
| EvLog (message : string).         (* [logger.error(message)] *)

Definition is_remote (ev : event) : bool :=
  match ev with EvListTables | EvCreateTable _ => true | _ => false end.

(** The remote calls of a trace. *)
Definition remote_calls (tr : list event) : list event := filter is_remote tr.

(** The two cells the decorator closes over. *)
Record limiter : Type := { last_reset : Z; calls_made : Z }.

(** The state a call runs in: the limiter's cells and the trace so far. *)
Record world : Type := { cells : limiter; trace : list event }.

(** What the outside answers during one invocation: the reading of
    [datetime.now()] on entry (line 74), the reading after the sleep
    (line 86, consulted only when the call sleeps), and the outcome of
    each remote operation, [create_table] answering a pair
    [(status, info)]. *)
Record env : Type := {
  now : Z;
  woke : Z;
  list_tables_answer : outcome pyval;
  create_table_answer : pyval -> outcome (pyval * pyval)
}.

(** Computations that read and write the world and may raise. *)
Definition M (A : Type) : Type := world -> outcome A * world.

Definition ret {A} (a : A) : M A := fun w => (inr a, w).
Definition raise {A} (e : exn) : M A := fun w => (inl e, w).
Definition bind {A B} (c : M A) (k : A -> M B) : M B :=
  fun w => match c w with
           | (inr a, w') => k a w'
           | (inl e, w') => (inl e, w')
           end.
Definition lift {A} (o : outcome A) : M A := fun w => (o, w).
Definition emit (ev : event) : M unit :=
  fun w => (inr tt, {| cells := cells w; trace := trace w ++ [ev] |}).

Notation "x <- c ;; k" := (bind c (fun x => k))
  (at level 61, c at next level, right associativity).
Notation "c ;;; k" := (bind c (fun _ => k))
  (at level 61, right associativity).

(** [try: body except C1 as e: h1 except C2 as e: h2 ...]: a raised
    exception goes to the first clause whose class it is an instance of,
    and propagates when there is none. *)
Fixpoint handle {A} (clauses : list ((exn -> bool) * (exn -> M A))) (e : exn) : M A :=
  match clauses with
  | [] => raise e
  | (is_instance, handler) :: rest =>
      if is_instance e then handler e else handle rest e
  end.

Definition try_except {A} (body : M A)
    (clauses : list ((exn -> bool) * (exn -> M A))) : M A :=
  fun w => match body w with
           | (inr a, w') => (inr a, w')
           | (inl e, w') => handle clauses e w'
           end.

(** [isinstance(e, Exception)]: every [exn] is one. *)
Definition isinstance_Exception (e : exn) : bool := true.

(* ------------------------------------------------------------------ *)
(** ** Start-up configuration (lines 27-38) *)

Module Config.

(** [os.environ], after [load_dotenv()]. *)
Definition environ : Type := list (string * string).

(** [os.getenv(key, default)] *)
Definition getenv (e : environ) (key default : string) : string :=
  match find (fun kv => String.eqb key (fst kv)) e with
  | Some kv => snd kv
  | None => default
  end.

(** [not s] for a [str]: true of the empty string only. *)
Definition str_not (s : string) : bool :=
  match s with EmptyString => true | _ => false end.

Record settings : Type := {
  EPSILLA_PROJECT_ID : string;
  EPSILLA_API_KEY : string;
  EPSILLA_DB_ID : string
}.

(** Lines 27-38: the three identifiers are read, then checked in turn.
    The result is what is handed to the client constructors of lines
    43-50, or the [ValueError] that ends the import of the module. *)
Definition load (e : environ) : outcome settings :=
  let project_id := getenv e "EPSILLA_PROJECT_ID" "Your-Epsilla-Project-ID" in
  let api_key := getenv e "EPSILLA_API_KEY" "Your-Epsilla-API-Key" in
  let db_id := getenv e "EPSILLA_DB_ID" "Your-Epsilla-DB-ID" in
  if str_not project_id then
    inl (ValueError "EPSILLA_PROJECT_ID environment variable must be set")
  else if str_not api_key then
    inl (ValueError "EPSILLA_API_KEY environment variable must be set")
  else if str_not db_id then
    inl (ValueError "EPSILLA_DB_ID environment variable must be set")
  else inr {| EPSILLA_PROJECT_ID := project_id;
              EPSILLA_API_KEY := api_key;
              EPSILLA_DB_ID := db_id |}.

(** The environment has no variable [key]. *)
Definition unset (e : environ) (key : string) : Prop :=
  find (fun kv => String.eqb key (fst kv)) e = None.

End Config.

(* ------------------------------------------------------------------ *)
(** ** The rate limiter (lines 64-94) *)

Module RateLimit.

(** Lines 68-69: the cells as [decorator] creates them, [t0] being the
    reading of [datetime.now()] when the function is decorated. *)
Definition decorator (t0 : Z) : limiter := {| last_reset := t0; calls_made := 0 |}.

(** Lines 77-79: reset the counter if the period has passed. *)
Definition window_check (period : Z) (now : Z) (st : limiter) : limiter :=
  if now - last_reset st >? period
  then {| last_reset := now; calls_made := 0 |}
  else st.

(** Lines 82-87: when the limit is hit, the time left in the window is
    computed; a positive wait is slept, and only then are the cells
    reset, the window start taking the reading [woke] made after the
    sleep.  The second component is the duration slept, if any. *)
Definition budget_check (calls period : Z) (now woke : Z) (st : limiter)
  : limiter * option Z :=
  if calls_made st >=? calls then
    let wait_time := period - (now - last_reset st) in
    if wait_time >? 0
    then ({| last_reset := woke; calls_made := 0 |}, Some wait_time)
    else (st, None)
  else (st, None).

(** Line 89. *)
Definition count_call (st : limiter) : limiter :=
  {| last_reset := last_reset st; calls_made := calls_made st + 1 |}.

(** The cells as they stand after line 87 (the end of step 3). *)
Definition after_checks (calls period : Z) (now woke : Z) (st : limiter)
  : limiter * option Z :=
  budget_check calls period now woke (window_check period now st).

(** Lines 74-89: everything [wrapper] does before it calls [func]. *)
Definition guard (calls period : Z) (now woke : Z) (st : limiter)
  : limiter * option Z :=
  let (st3, slept) := after_checks calls period now woke st in
  (count_call st3, slept).

(** The trace of a guard: one sleep, or nothing. *)
Definition sleep_events (slept : option Z) : list event :=
  match slept with Some wait_time => [EvSleep wait_time] | None => [] end.

(** Lines 72-90: [wrapper], for the wrapped coroutine [func]. *)
Definition wrapper {A} (calls period : Z) (e : env) (func : M A) : M A :=
  fun w =>
    let (st, slept) := guard calls period (now e) (woke e) (cells w) in
    func {| cells := st; trace := trace w ++ sleep_events slept |}.

(** A clock reading pair per invocation, for runs of the limiter alone. *)
Record tick : Type := { t_now : Z; t_woke : Z }.

(** What one invocation of a run leaves: the cells after line 87, the
    cells after line 89, and the duration slept. *)
Record step : Type := {
  s_checked : limiter;
  s_counted : limiter;
  s_slept : option Z
}.

(** Successive invocations of one wrapper, from the cells [st]. *)
Fixpoint run (calls period : Z) (st : limiter) (ticks : list tick) : list step :=
  match ticks with
  | [] => []
  | tk :: rest =>
      let (st3, slept) := after_checks calls period (t_now tk) (t_woke tk) st in
      let st4 := count_call st3 in
      {| s_checked := st3; s_counted := st4; s_slept := slept |}
        :: run calls period st4 rest
  end.

(** The cells after a run. *)
Definition cells_after (calls period : Z) (st : limiter) (ticks : list tick) : limiter :=
  fold_left (fun s tk => fst (guard calls period (t_now tk) (t_woke tk) s)) ticks st.

(** A clock that never runs backwards: each reading is at least the one
    before it, the first at least [prev]. *)
Fixpoint nondecreasing (prev : Z) (readings : list Z) : Prop :=
  match readings with
  | [] => True
  | t :: rest => prev <= t /\ nondecreasing t rest
  end.

(** A sleep lasts at least as long as it was asked to. *)
Definition sleep_honoured (tk : tick) (slept : option Z) : Prop :=
  match slept with
  | Some wait_time => t_now tk + wait_time <= t_woke tk
  | None => True
  end.

(** What the invocation [tk] sleeps when it follows the run [ticks]. *)
Definition slept_after (calls period : Z) (st : limiter) (ticks : list tick)
    (tk : tick) : option Z :=
  snd (after_checks calls period (t_now tk) (t_woke tk)
         (cells_after calls period st ticks)).

(** The earliest instant at which the wrapped operation of an invocation
    can begin: the reading after the sleep when the call slept, the
    reading on entry otherwise. *)
Definition op_start (tk : tick) (slept : option Z) : Z :=
  match slept with Some _ => t_woke tk | None => t_now tk end.

(** No invocation of the run reads the clock exactly one period after
    the window start it finds. *)
Fixpoint off_boundary (calls period : Z) (st : limiter) (ticks : list tick) : Prop :=
  match ticks with
  | [] => True
  | tk :: rest =>
      t_now tk - last_reset st <> period
      /\ off_boundary calls period
           (fst (guard calls period (t_now tk) (t_woke tk) st)) rest
  end.

(** After [k] unsuspended invocations of a limiter built at [t0]: either
    the window is still the one opened at [t0] and holds all [k] calls,
    or it was reopened at a reading more than a period after [t0]. *)
Definition burst_inv (period t0 : Z) (k tprev : Z) (st : limiter) : Prop :=
  0 <= calls_made st <= k
  /\ ((last_reset st = t0 /\ calls_made st = k)
      \/ (t0 + period < last_reset st /\ last_reset st <= tprev)).

(** Ten invocations in the instant the limiter is built, then two more
    exactly one period later. *)
Definition boundary_ticks : list tick :=
  (repeat {| t_now := 0; t_woke := 0 |} 10
     ++ repeat {| t_now := 1000000; t_woke := 1000000 |} 2)%list.

End RateLimit.

(* ------------------------------------------------------------------ *)
(** ** The tool catalog and the dispatcher (lines 111-171) *)

Record Tool : Type := { name : string; description : string; inputSchema : pyval }.

Record TextContent : Type := { type : string; text : string }.

(** Lines 111-131. *)
Definition list_tools : M (list Tool) :=
  ret [ {| name := "list_dbs";
           description := "List all dbs you have access to";
           inputSchema :=
             PDict [ (PStr "type", PStr "object");
                     (PStr "properties", PDict []);
                     (PStr "required", PList []) ] |};
        {| name := "create_table";
           description := "Create a new table in Epsilla for storing documents";
           inputSchema :=
             PDict [ (PStr "type", PStr "object");
                     (PStr "properties",
                      PDict [ (PStr "name",
                               PDict [ (PStr "type", PStr "string");
                                       (PStr "description", PStr "Name of the table") ]) ]);
                     (PStr "required", PList [PStr "name"]) ] |} ].

(** The remote operations and the logger, as computations. *)
Definition db_list_tables (e : env) : M pyval :=
  emit EvListTables ;;; lift (list_tables_answer e).

Definition db_create_table (e : env) (table : pyval) : M (pyval * pyval) :=
  emit (EvCreateTable table) ;;; lift (create_table_answer e table).

Definition logger_error (message : string) : M unit := emit (EvLog message).

(** Lines 139-150: the branch on the tool name, up to [result]. *)
Definition dispatch (e : env) (name : string) (arguments : pyval) : M pyval :=
  if String.eqb name "list_tables" then
    tables <- db_list_tables e ;;
    ret (PDict [(PStr "tables", tables)])
  else if String.eqb name "create_table" then
    if (negb (isinstance_dict arguments) || negb (dict_contains "name" arguments))%bool
    then raise (ValueError "Missing required parameter: 'name'")
    else
      table <- lift (getitem arguments "name") ;;
      resp <- db_create_table e table ;;
      ret (PDict [(PStr "info", snd resp)])
  else raise (ValueError ("Unknown tool: " ++ name)).

(** The two [except Exception] clauses, lines 156-171. *)
Definition api_error_clause (e : exn) : M (list TextContent) :=
  let error_message := "Epsilla API error: " ++ exn_str e in
  logger_error error_message ;;;
  ret [ {| type := "text"; text := error_message |} ].

Definition executing_error_clause (name : string) (e : exn) : M (list TextContent) :=
  let error_message := "Error executing " ++ name ++ ": " ++ exn_str e in
  logger_error error_message ;;;
  ret [ {| type := "text"; text := error_message |} ].

(** Lines 138-171: the body of [call_tool]. *)
Definition try_block (e : env) (name : string) (arguments : pyval)
  : M (list TextContent) :=
  result <- dispatch e name arguments ;;
  text <- lift (Json.dumps result) ;;
  ret [ {| type := "text"; text := text |} ].

Definition call_tool_body (e : env) (name : string) (arguments : pyval)
  : M (list TextContent) :=
  try_except (try_block e name arguments)
    [ (isinstance_Exception, api_error_clause);
      (isinstance_Exception, executing_error_clause name) ].

(** Lines 134-136: [call_tool] as registered, behind
    [rate_limit(calls=10, period=1.0)]. *)
Definition call_tool (e : env) (name : string) (arguments : pyval)
  : M (list TextContent) :=
  RateLimit.wrapper 10 1000000 e (call_tool_body e name arguments).

(* ------------------------------------------------------------------ *)
(** ** Vocabulary of the statements about the dispatcher *)

(** The world the body of [call_tool] starts in. *)
Definition entered (e : env) (w : world) : world :=
  {| cells := fst (RateLimit.guard 10 1000000 (now e) (woke e) (cells w));
     trace := trace w
              ++ RateLimit.sleep_events
                   (snd (RateLimit.guard 10 1000000 (now e) (woke e) (cells w))) |}.

Definition text_item (t : string) : TextContent := {| type := "text"; text := t |}.

Definition api_error_text (x : exn) : string := "Epsilla API error: " ++ exn_str x.

(** Every way the body of [call_tool] ends: with the JSON text of a
    one-entry object, or in the first [except] clause; [evs] are the
    remote calls it made on the way. *)
Inductive body_result (w : world) : outcome (list TextContent) * world -> Prop :=
| body_success (key : string) (v : pyval) (t : string) (evs : list event) (w' : world) :
    key = "tables" \/ key = "info" ->
    Json.dumps (PDict [(PStr key, v)]) = inr t ->
    forallb is_remote evs = true ->
    cells w' = cells w ->
    trace w' = (trace w ++ evs)%list ->
    body_result w (inr [text_item t], w')
| body_failure (x : exn) (evs : list event) (w' : world) :
    forallb is_remote evs = true ->
    cells w' = cells w ->
    trace w' = (trace w ++ evs ++ [EvLog (api_error_text x)])%list ->
    body_result w (inr [text_item (api_error_text x)], w').


(** A server that has just been started at time [t0]. *)
Definition started (t0 : Z) : world :=
  {| cells := RateLimit.decorator t0; trace := [] |}.

(** A remote service that answers: no tables, and status 200 with a
    message for every creation. *)
Definition answering (t : Z) : env :=
  {| now := t; woke := t;
     list_tables_answer := inr (PList []);
     create_table_answer :=
       fun _ => inr (PInt 200, PDict [(PStr "message", PStr "ok")]) |}.

(** A remote service whose every operation raises [x]. *)
Definition failing (t : Z) (x : exn) : env :=
  {| now := t; woke := t;
     list_tables_answer := inl x;
     create_table_answer := fun _ => inl x |}.

(* ------------------------------------------------------------------ *)
(** ** [validate_db_id] (lines 97-99) *)

Module Validate.

(** [bool(v)].  What an object of another class answers is its class's
    business: [obj_truth] gives it, from the class name and [str]. *)
Definition truthy (obj_truth : string -> string -> bool) (v : pyval) : bool :=
  match v with
  | PNone => false
  | PBool b => b
  | PInt z => negb (z =? 0)
  | PFloat lit => negb (String.eqb lit "0.0" || String.eqb lit "-0.0")
  | PStr s => negb (Config.str_not s)
  | PList l | PTuple l => match l with [] => false | _ :: _ => true end
  | PDict items => match items with [] => false | _ :: _ => true end
  | PObj cls str_ => obj_truth cls str_
  end.

(** [isinstance(v, str)] *)
Definition isinstance_str (v : pyval) : bool :=
  match v with PStr _ => true | _ => false end.

(** [x and y], [y] being evaluated only when [x] is true. *)
Definition py_and (obj_truth : string -> string -> bool) (x y : pyval) : pyval :=
  if truthy obj_truth x then y else x.

(** Line 99: [bool(db_id and isinstance(db_id, str))]. *)
Definition validate_db_id (obj_truth : string -> string -> bool) (db_id : pyval) : bool :=
  truthy obj_truth (py_and obj_truth db_id (PBool (isinstance_str db_id))).

End Validate.

(* ------------------------------------------------------------------ *)
(** ** Further vocabulary: clocks, logs, remote footprint *)

(** Readings that never run backwards through a run: each invocation
    reads the clock no earlier than the one before it woke, and wakes no
    earlier than it entered. *)
Fixpoint ordered (prev : Z) (ticks : list RateLimit.tick) : Prop :=
  match ticks with
  | [] => True
  | tk :: rest =>
      prev <= RateLimit.t_now tk
      /\ RateLimit.t_now tk <= RateLimit.t_woke tk
      /\ ordered (RateLimit.t_woke tk) rest
  end.

(** A sleep of a run is positive and no longer than [period]. *)
Definition bounded_sleep (period : Z) (s : RateLimit.step) : Prop :=
  match RateLimit.s_slept s with
  | Some wait_time => 0 < wait_time <= period
  | None => True
  end.

Definition is_log (ev : event) : bool :=
  match ev with EvLog _ => true | _ => false end.

(** The messages a trace logs. *)
Definition logs (tr : list event) : list event := filter is_log tr.

(** The remote operation an invocation performs, read off its input
    alone. *)
Definition remote_footprint (name : string) (arguments : pyval) : list event :=
  if String.eqb name "list_tables" then [EvListTables]
  else if String.eqb name "create_table" then
    match getitem arguments "name" with
    | inr table => [EvCreateTable table]
    | inl _ => []
    end
  else [].

(** The text an invocation of [list_tables] returns, from the answer of
    the remote service. *)
Definition list_tables_text (e : env) : string :=
  match list_tables_answer e with
  | inl x => api_error_text x
  | inr tables =>
      match Json.dumps (PDict [(PStr "tables", tables)]) with
      | inl x => api_error_text x
      | inr t => t
      end
  end.

(** The text an invocation of [create_table] returns for the table
    value [table], from the answer of the remote service. *)
Definition create_table_text (e : env) (table : pyval) : string :=
  match create_table_answer e table with
  | inl x => api_error_text x
  | inr resp =>
      match Json.dumps (PDict [(PStr "info", snd resp)]) with
      | inl x => api_error_text x
      | inr t => t
      end
  end.

(* ------------------------------------------------------------------ *)
(** ** Successive calls, and the catalog read as a schema *)

(** One tool call as the server receives it, with what the outside
    answers while it runs. *)
Record request : Type := { r_env : env; r_name : string; r_arguments : pyval }.

(** Calls served one after the other, each to completion, from the
    world [w]: what each returned, and the world left. *)
Fixpoint serve (reqs : list request) (w : world)
  : list (outcome (list TextContent)) * world :=
  match reqs with
  | [] => ([], w)
  | r :: rest =>
      let (o, w1) := call_tool (r_env r) (r_name r) (r_arguments r) w in
      let (os, w2) := serve rest w1 in
      (o :: os, w2)
  end.

(** The clock readings of a request. *)
Definition tick_of (r : request) : RateLimit.tick :=
  {| RateLimit.t_now := now (r_env r); RateLimit.t_woke := woke (r_env r) |}.

Definition is_sleep (ev : event) : bool :=
  match ev with EvSleep _ => true | _ => false end.

(** The suspensions of a trace, and those of a run of the limiter. *)
Definition sleeps (tr : list event) : list event := filter is_sleep tr.

Definition sleeps_of (steps : list RateLimit.step) : list event :=
  flat_map (fun s => RateLimit.sleep_events (RateLimit.s_slept s)) steps.

(** The keys a JSON schema lists under ["required"]. *)
Definition schema_required (schema : pyval) : list string :=
  match getitem schema "required" with
  | inr (PList l) =>
      flat_map (fun v => match v with PStr s => [s] | _ => [] end) l
  | _ => []
  end.

(** The bag has every key the schema requires. *)
Definition has_required (schema arguments : pyval) : bool :=
  forallb (fun key => dict_contains key arguments) (schema_required schema).

(* ------------------------------------------------------------------ *)
(** ** The dispatcher with every kind of exception *)

(** The same lines 134-171, where a remote operation may also raise an
    exception that is no instance of [Exception]. *)
Module Signals.

(** What a [raise] raises: an instance of [Exception], or an instance of
    a class that derives from [BaseException] only ([KeyboardInterrupt],
    [SystemExit], [GeneratorExit], [asyncio.CancelledError]), known by
    its class name and by what [str] returns for it. *)
Inductive raised : Type :=
| Exc (x : exn)
| Base (cls : string) (str_ : string).

Definition result (A : Type) : Type := (raised + A)%type.

(** [str(e)] *)
Definition str (r : raised) : string :=
  match r with Exc x => exn_str x | Base _ str_ => str_ end.

(** [isinstance(e, Exception)] *)
Definition isinstance_Exception (r : raised) : bool :=
  match r with Exc _ => true | Base _ _ => false end.

(** What the outside answers during one invocation. *)
Record env : Type := {
  now : Z;
  woke : Z;
  list_tables_answer : result pyval;
  create_table_answer : pyval -> result (pyval * pyval)
}.

Definition M (A : Type) : Type := world -> result A * world.

Definition ret {A} (a : A) : M A := fun w => (inr a, w).
Definition raise {A} (r : raised) : M A := fun w => (inl r, w).
Definition bind {A B} (c : M A) (k : A -> M B) : M B :=
  fun w => match c w with
           | (inr a, w') => k a w'
           | (inl r, w') => (inl r, w')
           end.
Definition lift {A} (o : result A) : M A := fun w => (o, w).

(** An operation that raises instances of [Exception] only. *)
Definition lift_outcome {A} (o : outcome A) : M A :=
  fun w => (match o with inl x => inl (Exc x) | inr a => inr a end, w).
Definition emit (ev : event) : M unit :=
  fun w => (inr tt, {| cells := cells w; trace := trace w ++ [ev] |}).

Notation "x <~ c ;; k" := (bind c (fun x => k))
  (at level 61, c at next level, right associativity).
Notation "c ;;~ k" := (bind c (fun _ => k))
  (at level 61, right associativity).

Fixpoint handle {A} (clauses : list ((raised -> bool) * (raised -> M A)))
    (r : raised) : M A :=
  match clauses with
  | [] => raise r
  | (is_instance, handler) :: rest =>
      if is_instance r then handler r else handle rest r
  end.

Definition try_except {A} (body : M A)
    (clauses : list ((raised -> bool) * (raised -> M A))) : M A :=
  fun w => match body w with
           | (inr a, w') => (inr a, w')
           | (inl r, w') => handle clauses r w'
           end.

Definition db_list_tables (e : env) : M pyval :=
  emit EvListTables ;;~ lift (list_tables_answer e).

Definition db_create_table (e : env) (table : pyval) : M (pyval * pyval) :=
  emit (EvCreateTable table) ;;~ lift (create_table_answer e table).

Definition logger_error (message : string) : M unit := emit (EvLog message).

(** Lines 139-150. *)
Definition dispatch (e : env) (name : string) (arguments : pyval) : M pyval :=
  if String.eqb name "list_tables" then
    tables <~ db_list_tables e ;;
    ret (PDict [(PStr "tables", tables)])
  else if String.eqb name "create_table" then
    if (negb (isinstance_dict arguments) || negb (dict_contains "name" arguments))%bool
    then raise (Exc (ValueError "Missing required parameter: 'name'"))
    else
      table <~ lift_outcome (getitem arguments "name") ;;
      resp <~ db_create_table e table ;;
      ret (PDict [(PStr "info", snd resp)])
  else raise (Exc (ValueError ("Unknown tool: " ++ name))).

(** Lines 156-171. *)
Definition api_error_clause (r : raised) : M (list TextContent) :=
  let error_message := "Epsilla API error: " ++ str r in
  logger_error error_message ;;~
  ret [ {| type := "text"; text := error_message |} ].

Definition executing_error_clause (name : string) (r : raised)
  : M (list TextContent) :=
  let error_message := "Error executing " ++ name ++ ": " ++ str r in
  logger_error error_message ;;~
  ret [ {| type := "text"; text := error_message |} ].

Definition try_block (e : env) (name : string) (arguments : pyval)
  : M (list TextContent) :=
  result <~ dispatch e name arguments ;;
  text <~ lift_outcome (Json.dumps result) ;;
  ret [ {| type := "text"; text := text |} ].

(** Lines 138-171. *)
Definition call_tool_body (e : env) (name : string) (arguments : pyval)
  : M (list TextContent) :=
  try_except (try_block e name arguments)
    [ (isinstance_Exception, api_error_clause);
      (isinstance_Exception, executing_error_clause name) ].

(** Lines 72-90, for a wrapped coroutine that may raise anything. *)
Definition wrapper {A} (calls period : Z) (e : env) (func : M A) : M A :=
  fun w =>
    let (st, slept) := RateLimit.guard calls period (now e) (woke e) (cells w) in
    func {| cells := st; trace := trace w ++ RateLimit.sleep_events slept |}.

(** Lines 134-136. *)
Definition call_tool (e : env) (name : string) (arguments : pyval)
  : M (list TextContent) :=
  wrapper 10 1000000 e (call_tool_body e name arguments).


End Signals.

(** The results and the environments of the dispatcher that raises
    instances of [Exception] only, read in [Signals]. *)
Definition of_outcome {A} (o : outcome A) : Signals.result A :=
  match o with inl x => inl (Signals.Exc x) | inr a => inr a end.

Definition of_env (e : env) : Signals.env :=
  {| Signals.now := now e;
     Signals.woke := woke e;
     Signals.list_tables_answer := of_outcome (list_tables_answer e);
     Signals.create_table_answer :=
       fun table => of_outcome (create_table_answer e table) |}.

(* ================================================================== *)
(** * Properties of the start-up configuration *)

Module ConfigFacts.
Import Config.

Lemma getenv_unset (e : environ) (key default : string) :
  unset e key -> getenv e key default = default.
Proof. unfold unset, getenv. now intros ->. Qed.

(** An identifier that is not in the environment takes its placeholder,
    and the check on it passes. *)
Lemma load_all_unset (e : environ) :
  unset e "EPSILLA_PROJECT_ID" -> unset e "EPSILLA_API_KEY" -> unset e "EPSILLA_DB_ID" ->
  load e = inr {| EPSILLA_PROJECT_ID := "Your-Epsilla-Project-ID";
                  EPSILLA_API_KEY := "Your-Epsilla-API-Key";
                  EPSILLA_DB_ID := "Your-Epsilla-DB-ID" |}.
Proof.
  intros H1 H2 H3. unfold load. now rewrite !getenv_unset by assumption.
Qed.

(** X6.  The checks stop the start exactly when one of the three values
    read is the empty string. *)
Lemma load_raises_iff (e : environ) :
  (exists x, load e = inl x)
  <-> (getenv e "EPSILLA_PROJECT_ID" "Your-Epsilla-Project-ID" = EmptyString
       \/ getenv e "EPSILLA_API_KEY" "Your-Epsilla-API-Key" = EmptyString
       \/ getenv e "EPSILLA_DB_ID" "Your-Epsilla-DB-ID" = EmptyString).
Proof.
  unfold load.
  destruct (getenv e "EPSILLA_PROJECT_ID" "Your-Epsilla-Project-ID") as [| c1 s1];
    simpl; [split; [auto | eauto] |].
  destruct (getenv e "EPSILLA_API_KEY" "Your-Epsilla-API-Key") as [| c2 s2];
    simpl; [split; [auto | eauto] |].
  destruct (getenv e "EPSILLA_DB_ID" "Your-Epsilla-DB-ID") as [| c3 s3];
    simpl; [split; [auto | eauto] |].
  split.
  - intros [x H]. discriminate.
  - intros [H | [H | H]]; discriminate.
Qed.

(** C2 (the code at the failing input).  With none of the three
    identifiers in the environment, no [ValueError] is raised: each takes
    the placeholder given to [os.getenv] as default, the checks pass and
    the placeholders go on to the client constructors.  A check fires
    when its variable is set to the empty string. *)
Lemma start_with_empty_environment :
  load [] = inr {| EPSILLA_PROJECT_ID := "Your-Epsilla-Project-ID";
                   EPSILLA_API_KEY := "Your-Epsilla-API-Key";
                   EPSILLA_DB_ID := "Your-Epsilla-DB-ID" |}
  /\ load [("EPSILLA_API_KEY", "k"); ("EPSILLA_DB_ID", "d")]
     = inr {| EPSILLA_PROJECT_ID := "Your-Epsilla-Project-ID";
              EPSILLA_API_KEY := "k";
              EPSILLA_DB_ID := "d" |}
  /\ load [("EPSILLA_PROJECT_ID", EmptyString)]
     = inl (ValueError "EPSILLA_PROJECT_ID environment variable must be set").
Proof. repeat split; reflexivity. Qed.

End ConfigFacts.

(* ================================================================== *)
(** * Properties of the rate limiter *)

Module RateLimitFacts.
Import RateLimit.

Section Window.

Variables calls period : Z.

(** The window check resets exactly when more than a period has passed. *)
Lemma window_check_cases now st :
  (now - last_reset st > period
   /\ window_check period now st = {| last_reset := now; calls_made := 0 |})
  \/ (now - last_reset st <= period /\ window_check period now st = st).
Proof.
  unfold window_check.
  destruct (Z.gtb_spec (now - last_reset st) period); [left | right]; split; auto; lia.
Qed.

(** The budget check sleeps exactly when the limit is hit with time left
    in the window; the cells are reset in that case and in no other. *)
Lemma budget_check_cases now woke st :
  (calls_made st < calls /\ budget_check calls period now woke st = (st, None))
  \/ (calls <= calls_made st /\ period - (now - last_reset st) <= 0
      /\ budget_check calls period now woke st = (st, None))
  \/ (calls <= calls_made st /\ 0 < period - (now - last_reset st)
      /\ budget_check calls period now woke st
         = ({| last_reset := woke; calls_made := 0 |},
            Some (period - (now - last_reset st)))).
Proof.
  unfold budget_check.
  destruct (Z.geb_spec (calls_made st) calls) as [Hge | Hlt].
  - destruct (Z.gtb_spec (period - (now - last_reset st)) 0).
    + right; right. repeat split; auto; lia.
    + right; left. repeat split; auto; lia.
  - left. split; auto.
Qed.

(** Away from the boundary reading [now - last_reset = period], the counter
    stands below a positive budget when line 87 is passed, whatever it
    was on entry; line 89 then leaves it within the budget. *)
Lemma after_checks_below_budget now woke st :
  0 < calls ->
  now - last_reset st <> period ->
  calls_made (fst (after_checks calls period now woke st)) < calls.
Proof.
  intros Hc Hne. unfold after_checks.
  destruct (window_check_cases now st) as [[Hgt ->] | [Hle ->]].
  - destruct (budget_check_cases now woke {| last_reset := now; calls_made := 0 |})
      as [[H ->] | [[H [_ ->]] | [H [_ ->]]]]; simpl in *; lia.
  - destruct (budget_check_cases now woke st)
      as [[H ->] | [[H [Hw ->]] | [H [_ ->]]]]; simpl in *; lia.
Qed.

(** A call that sleeps restarts the window at the reading made after the
    sleep, with the counter at zero. *)
Lemma after_checks_slept now woke st st3 wait_time :
  after_checks calls period now woke st = (st3, Some wait_time) ->
  st3 = {| last_reset := woke; calls_made := 0 |} /\ 0 < wait_time.
Proof.
  unfold after_checks.
  set (st1 := window_check period now st).
  destruct (budget_check_cases now woke st1)
    as [[H ->] | [[H [Hw ->]] | [H [Hw ->]]]]; intros E; inversion E; subst.
  split; [reflexivity | lia].
Qed.

(** X1.  On a run that stays off the boundary reading, a positive budget
    is never passed: every invocation leaves line 87 with the counter below
    the budget and line 89 with the counter within it. *)
Lemma run_within_budget ticks :
  0 < calls ->
  forall st,
    off_boundary calls period st ticks ->
    Forall (fun s => calls_made (s_checked s) < calls
                     /\ calls_made (s_counted s) <= calls)
      (run calls period st ticks).
Proof.
  intros Hc. induction ticks as [| tk ticks IH]; intros st Hoff; simpl.
  - constructor.
  - destruct Hoff as [Hne Hoff]. unfold guard in Hoff.
    pose proof (after_checks_below_budget (t_now tk) (t_woke tk) st Hc Hne) as Hlt.
    destruct (after_checks calls period (t_now tk) (t_woke tk) st) as [st3 slept].
    simpl in *. constructor.
    + simpl. lia.
    + apply IH. exact Hoff.
Qed.

Lemma run_app st ticks1 ticks2 :
  run calls period st (ticks1 ++ ticks2)
  = (run calls period st ticks1
       ++ run calls period (cells_after calls period st ticks1) ticks2)%list.
Proof.
  revert st. induction ticks1 as [| tk ticks1 IH]; intros st; simpl.
  - reflexivity.
  - unfold guard.
    destruct (after_checks calls period (t_now tk) (t_woke tk) st) as [st3 slept].
    simpl. now rewrite IH.
Qed.

Lemma run_length st ticks :
  List.length (run calls period st ticks) = List.length ticks.
Proof.
  revert st. induction ticks as [| tk ticks IH]; intros st; simpl.
  - reflexivity.
  - destruct (after_checks calls period (t_now tk) (t_woke tk) st). simpl. now rewrite IH.
Qed.

End Window.

(** *** The first burst after the limiter is built *)

Section Burst.

Variables period t0 : Z.

Lemma burst_inv_decorator : burst_inv period t0 0 t0 (decorator t0).
Proof. unfold burst_inv, decorator; simpl. split; [lia | left; split; reflexivity]. Qed.

Lemma burst_step calls k tprev st tk :
  burst_inv period t0 k tprev st -> k < calls -> tprev <= t_now tk ->
  snd (after_checks calls period (t_now tk) (t_woke tk) st) = None
  /\ burst_inv period t0 (k + 1) (t_now tk)
       (fst (guard calls period (t_now tk) (t_woke tk) st)).
Proof.
  intros [Hk Hcase] Hlt Hmono. unfold guard, after_checks.
  destruct (window_check_cases period (t_now tk) st) as [[Hgt ->] | [Hle ->]].
  - destruct (budget_check_cases calls period (t_now tk) (t_woke tk)
                {| last_reset := t_now tk; calls_made := 0 |})
      as [[H ->] | [[H _] | [H _]]]; simpl in H; try lia.
    simpl. split; [reflexivity |]. unfold burst_inv; simpl.
    split; [lia |]. right. destruct Hcase as [[Hr _] | [Hr Hp]]; lia.
  - destruct (budget_check_cases calls period (t_now tk) (t_woke tk) st)
      as [[H ->] | [[H _] | [H _]]]; try lia.
    simpl. split; [reflexivity |]. unfold burst_inv; simpl.
    split; [lia |]. destruct Hcase as [[Hr Hc] | [Hr Hp]]; [left | right]; lia.
Qed.

Lemma burst_run calls tlast ticks :
  forall k tprev st,
    burst_inv period t0 k tprev st ->
    k + Z.of_nat (List.length ticks) <= calls ->
    nondecreasing tprev (map t_now ticks ++ [tlast]) ->
    Forall (fun s => s_slept s = None) (run calls period st ticks)
    /\ exists tp,
        burst_inv period t0 (k + Z.of_nat (List.length ticks)) tp
          (cells_after calls period st ticks)
        /\ tp <= tlast.
Proof.
  induction ticks as [| tk ticks IH]; intros k tprev st Hinv Hlen Hmono.
  - simpl in *. split; [constructor |]. exists tprev.
    rewrite Z.add_0_r. split; [assumption | lia].
  - cbn [List.length map app nondecreasing] in *. destruct Hmono as [Hle Hmono].
    rewrite Nat2Z.inj_succ in *.
    destruct (burst_step calls k tprev st tk Hinv ltac:(lia) Hle) as [Hnone Hinv'].
    destruct (IH (k + 1) (t_now tk) _ Hinv' ltac:(lia) Hmono) as [Hall [tp [Hfin Htp]]].
    cbn [run cells_after fold_left]. unfold guard in *.
    destruct (after_checks calls period (t_now tk) (t_woke tk) st) as [st3 slept].
    simpl in Hnone, Hinv', Hall, Hfin. subst slept. split.
    + constructor; [reflexivity | exact Hall].
    + exists tp. split; [| exact Htp].
      replace (k + Z.succ (Z.of_nat (List.length ticks)))
        with (k + 1 + Z.of_nat (List.length ticks)) by lia.
      exact Hfin.
Qed.

(** The invocation that finds the budget spent. *)
Lemma burst_next calls tp st tk :
  burst_inv period t0 calls tp st -> tp <= t_now tk ->
  sleep_honoured tk (snd (after_checks calls period (t_now tk) (t_woke tk) st)) ->
  t0 + period <= op_start tk (snd (after_checks calls period (t_now tk) (t_woke tk) st)).
Proof.
  intros [Hk Hcase] Hmono. unfold after_checks.
  destruct (window_check_cases period (t_now tk) st) as [[Hgt ->] | [Hle ->]].
  - destruct (budget_check_cases calls period (t_now tk) (t_woke tk)
                {| last_reset := t_now tk; calls_made := 0 |})
      as [[H ->] | [[H [Hw ->]] | [H [Hw ->]]]]; simpl in *; intros Hs;
      destruct Hcase as [[Hr Hc] | [Hr Hp]]; lia.
  - destruct (budget_check_cases calls period (t_now tk) (t_woke tk) st)
      as [[H ->] | [[H [Hw ->]] | [H [Hw ->]]]]; simpl in *; intros Hs;
      destruct Hcase as [[Hr Hc] | [Hr Hp]]; lia.
Qed.

End Burst.

(** *** The limiter of [call_tool]: ten calls per second *)

(** C3 (the code at the failing input).  With a budget of 10 per
    1000000 microseconds, ten invocations at time 0 and two at time
    1000000 never sleep, and yet the counter stands at 11 when the twelfth
    invocation passes line 87, and at 12 after it: at the reading
    [now - last_reset = period] neither the window check (strictly more
    than a period) nor the sleep (strictly positive wait) applies. *)
Lemma counter_passes_budget_at_boundary :
  map (fun s => (calls_made (s_checked s), calls_made (s_counted s), s_slept s))
      (skipn 10 (run 10 1000000 (decorator 0) boundary_ticks))
  = [ (10, 11, None); (11, 12, None) ]
  /\ forallb (fun s => match s_slept s with None => true | Some _ => false end)
       (run 10 1000000 (decorator 0) boundary_ticks) = true.
Proof. split; reflexivity. Qed.

(** C4 (the code at the failing input).  After ten invocations at time 0
    the counter has reached the budget; an invocation exactly one period
    later finds the limit hit (line 82) with a wait of zero, and leaves
    line 87 with the counter and the window start as they were: the
    reset of lines 86-87 is under the test [wait_time > 0]. *)
Lemma no_reset_when_wait_is_zero :
  cells_after 10 1000000 (decorator 0) (repeat {| t_now := 0; t_woke := 0 |} 10)
  = {| last_reset := 0; calls_made := 10 |}
  /\ (calls_made {| last_reset := 0; calls_made := 10 |} >=? 10) = true
  /\ after_checks 10 1000000 1000000 1000000 {| last_reset := 0; calls_made := 10 |}
     = ({| last_reset := 0; calls_made := 10 |}, None)
  /\ guard 10 1000000 1000000 1000000 {| last_reset := 0; calls_made := 10 |}
     = ({| last_reset := 0; calls_made := 11 |}, None).
Proof. repeat split; reflexivity. Qed.

(** C7, as amended.  For a limiter built at [t0] with a budget equal to
    the number [N] of the invocations [ticks], on a clock that never runs
    backwards: none of the first [N] invocations sleeps, whatever their
    timing; and the wrapped operation of the next invocation, whose sleep
    lasts at least what it asked for, begins no earlier than one period
    after [t0], the instant the limiter was built. *)
Theorem first_burst_unsuspended_next_waits (period t0 : Z) (ticks : list tick)
    (tk : tick) :
  nondecreasing t0 (map t_now ticks ++ [t_now tk]) ->
  sleep_honoured tk
    (slept_after (Z.of_nat (List.length ticks)) period (decorator t0) ticks tk) ->
  Forall (fun s => s_slept s = None)
    (run (Z.of_nat (List.length ticks)) period (decorator t0) ticks)
  /\ t0 + period
     <= op_start tk
          (slept_after (Z.of_nat (List.length ticks)) period (decorator t0) ticks tk).
Proof.
  intros Hmono Hsleep.
  destruct (burst_run period t0 (Z.of_nat (List.length ticks)) (t_now tk) ticks
              0 t0 (decorator t0) (burst_inv_decorator period t0)
              ltac:(lia) Hmono) as [Hall [tp [Hinv Htp]]].
  split; [exact Hall |].
  rewrite Z.add_0_l in Hinv.
  exact (burst_next period t0 _ tp _ tk Hinv Htp Hsleep).
Qed.

(** Three invocations at 100, 200 and 300 microseconds of a limiter built
    at 0 with a budget of 3 per 1000, then a fourth at 400 that sleeps
    600 and wakes at 1005. *)
Lemma first_burst_unsuspended_next_waits_witness :
  Forall (fun s => s_slept s = None)
    (run 3 1000 (decorator 0)
       [ {| t_now := 100; t_woke := 100 |}; {| t_now := 200; t_woke := 200 |};
         {| t_now := 300; t_woke := 300 |} ])
  /\ 0 + 1000
     <= op_start {| t_now := 400; t_woke := 1005 |}
          (slept_after 3 1000 (decorator 0)
             [ {| t_now := 100; t_woke := 100 |}; {| t_now := 200; t_woke := 200 |};
               {| t_now := 300; t_woke := 300 |} ]
             {| t_now := 400; t_woke := 1005 |}).
Proof.
  apply (first_burst_unsuspended_next_waits 1000 0
           [ {| t_now := 100; t_woke := 100 |}; {| t_now := 200; t_woke := 200 |};
             {| t_now := 300; t_woke := 300 |} ]
           {| t_now := 400; t_woke := 1005 |}).
  - simpl. lia.
  - vm_compute. discriminate.
Defined.

(** C7, as stated, fails.  The limiter of [call_tool] is built at time 0;
    ten invocations arrive together at 900000, and an eleventh in the
    same instant.  The clock never runs backwards and the sleep is
    honoured exactly; the eleventh sleeps 100000 and its wrapped
    operation begins at 1000000, which is 100000 after the first
    invocation and not a full period of 1000000. *)
Lemma eleventh_call_waits_less_than_a_period_after_first :
  nondecreasing 0
    (map t_now (repeat {| t_now := 900000; t_woke := 900000 |} 10) ++ [900000])
  /\ slept_after 10 1000000 (decorator 0)
       (repeat {| t_now := 900000; t_woke := 900000 |} 10)
       {| t_now := 900000; t_woke := 1000000 |} = Some 100000
  /\ sleep_honoured {| t_now := 900000; t_woke := 1000000 |} (Some 100000)
  /\ op_start {| t_now := 900000; t_woke := 1000000 |} (Some 100000) - 900000
     < 1000000.
Proof.
  split; [simpl; lia |]. split; [reflexivity |]. split; simpl; lia.
Qed.

End RateLimitFacts.

(* ================================================================== *)
(** * Properties of the dispatcher *)

Module DispatchFacts.

(** ** Exception clauses *)

(** A clause that names the class of an earlier clause is never taken. *)
Lemma handle_shadowed {A} (is_instance : exn -> bool) (h1 h2 : exn -> M A)
    (rest : list ((exn -> bool) * (exn -> M A))) (e : exn) :
  handle ((is_instance, h1) :: (is_instance, h2) :: rest) e
  = handle ((is_instance, h1) :: rest) e.
Proof. simpl. destruct (is_instance e); reflexivity. Qed.

(** ** Traces *)

Lemma remote_calls_app (tr1 tr2 : list event) :
  remote_calls (tr1 ++ tr2) = (remote_calls tr1 ++ remote_calls tr2)%list.
Proof. apply filter_app. Qed.

Lemma remote_calls_sleep_events (slept : option Z) :
  remote_calls (RateLimit.sleep_events slept) = [].
Proof. destruct slept; reflexivity. Qed.

(** ** The limiter in front of the body *)

Lemma call_tool_enters (e : env) (name : string) (arguments : pyval) (w : world) :
  call_tool e name arguments w = call_tool_body e name arguments (entered e w).
Proof.
  unfold call_tool, RateLimit.wrapper, entered.
  destruct (RateLimit.guard 10 1000000 (now e) (woke e) (cells w)); reflexivity.
Qed.

(** X9.  The body leaves the limiter's cells alone: after a call,
    whatever the tool name, the arguments and the answer of the remote
    service, and whether it succeeded or failed, the cells are what one
    pass of the guard made of them. *)
Lemma call_tool_cells (e : env) (name : string) (arguments : pyval) (w : world) :
  cells (snd (call_tool e name arguments w))
  = fst (RateLimit.guard 10 1000000 (now e) (woke e) (cells w)).
Proof.
  rewrite call_tool_enters.
  unfold call_tool_body, try_except, try_block, dispatch, db_list_tables,
    db_create_table, api_error_clause, logger_error, bind, lift, ret, raise,
    emit, handle, isinstance_Exception.
  repeat (match goal with
          | |- context [if ?b then _ else _] => destruct b
          | |- context [match ?x with inl _ => _ | inr _ => _ end] => destruct x
          end; simpl); reflexivity.
Qed.

Lemma remote_calls_entered (e : env) (w : world) :
  remote_calls (trace (entered e w)) = remote_calls (trace w).
Proof.
  unfold entered; simpl.
  now rewrite remote_calls_app, remote_calls_sleep_events, app_nil_r.
Qed.

(** ** The body, case by case *)

Ltac run_body :=
  unfold call_tool_body, try_except, try_block, dispatch, db_list_tables,
    db_create_table, api_error_clause, logger_error, bind, lift, ret, raise,
    emit, handle, isinstance_Exception; simpl.

Ltac close_failure x evs :=
  apply (body_failure _ x evs); simpl;
  [ reflexivity | reflexivity | rewrite <- ?app_assoc; reflexivity ].

Ltac close_success k v evs H :=
  apply (body_success _ k v _ evs); simpl;
  [ auto | exact H | reflexivity | reflexivity
  | rewrite <- ?app_assoc, ?app_nil_r; reflexivity ].

Lemma call_tool_body_result (e : env) (name : string) (arguments : pyval) (w : world) :
  body_result w (call_tool_body e name arguments w).
Proof.
  run_body.
  destruct (String.eqb name "list_tables").
  - simpl. destruct (list_tables_answer e) as [x | tables].
    + close_failure x [EvListTables].
    + destruct (Json.dumps (PDict [(PStr "tables", tables)])) as [x | t] eqn:Hd.
      * close_failure x [EvListTables].
      * close_success "tables" tables [EvListTables] Hd.
  - destruct (String.eqb name "create_table").
    + destruct (negb (isinstance_dict arguments)
                || negb (dict_contains "name" arguments))%bool.
      * simpl. close_failure (ValueError "Missing required parameter: 'name'")
          (@nil event).
      * simpl. destruct (getitem arguments "name") as [x | table].
        { close_failure x (@nil event). }
        simpl. destruct (create_table_answer e table) as [x | resp].
        { close_failure x [EvCreateTable table]. }
        destruct (Json.dumps (PDict [(PStr "info", snd resp)])) as [x | t] eqn:Hd.
        { close_failure x [EvCreateTable table]. }
        close_success "info" (snd resp) [EvCreateTable table] Hd.
    + simpl. close_failure (ValueError ("Unknown tool: " ++ name)) (@nil event).
Qed.


Lemma api_error_not_executing (x : exn) :
  String.prefix "Error executing" (api_error_text x) = false.
Proof. reflexivity. Qed.


(** A name that is neither of the two branches ends in the [else] of
    line 149. *)
Lemma unknown_tool_body (e : env) (name : string) (arguments : pyval) (w : world) :
  name <> "list_tables" -> name <> "create_table" ->
  call_tool_body e name arguments w
  = (inr [text_item ("Epsilla API error: Unknown tool: " ++ name)],
     {| cells := cells w;
        trace := trace w ++ [EvLog ("Epsilla API error: Unknown tool: " ++ name)] |}).
Proof.
  intros H1 H2. run_body.
  apply String.eqb_neq in H1, H2. rewrite H1, H2. reflexivity.
Qed.

(** [create_table] with a bag that is no dict or has no ["name"] key. *)
Lemma create_table_rejected (e : env) (arguments : pyval) (w : world) :
  (isinstance_dict arguments && dict_contains "name" arguments)%bool = false ->
  call_tool_body e "create_table" arguments w
  = (inr [text_item "Epsilla API error: Missing required parameter: 'name'"],
     {| cells := cells w;
        trace := trace w
                 ++ [EvLog "Epsilla API error: Missing required parameter: 'name'"] |}).
Proof.
  intros H. run_body.
  replace (negb (isinstance_dict arguments) || negb (dict_contains "name" arguments))%bool
    with true by (rewrite <- negb_andb, H; reflexivity).
  reflexivity.
Qed.

(** A dict that has the key yields the value bound to it. *)
Lemma getitem_of_contains (arguments : pyval) (key : string) :
  (isinstance_dict arguments && dict_contains key arguments)%bool = true ->
  exists v, getitem arguments key = inr v.
Proof.
  destruct arguments; simpl; try discriminate.
  induction items as [| kv items IH]; simpl; [discriminate |].
  destruct (str_key_eq key (fst kv)); simpl.
  - intros _. now exists (snd kv).
  - exact IH.
Qed.

(** [create_table] with a dict that has a ["name"] key: the remote
    operation is called with the value bound to it. *)
Lemma create_table_forwarded (e : env) (arguments : pyval) (table : pyval) (w : world) :
  (isinstance_dict arguments && dict_contains "name" arguments)%bool = true ->
  getitem arguments "name" = inr table ->
  remote_calls (trace (snd (call_tool_body e "create_table" arguments w)))
  = (remote_calls (trace w) ++ [EvCreateTable table])%list.
Proof.
  intros H Hget. run_body.
  replace (negb (isinstance_dict arguments) || negb (dict_contains "name" arguments))%bool
    with false by (rewrite <- negb_andb, H; reflexivity).
  simpl. rewrite Hget. simpl.
  destruct (create_table_answer e table) as [x | resp]; simpl.
  - rewrite !remote_calls_app. simpl. now rewrite app_nil_r.
  - destruct (Json.dumps (PDict [(PStr "info", snd resp)])); simpl;
      rewrite ?remote_calls_app; simpl; now rewrite ?app_nil_r.
Qed.

(** ** The claims *)

(** As long as the remote service raises instances of [Exception] only
    (every [env] does), [call_tool] returns a list of exactly one text
    item, whose text is the JSON encoding of a one-entry object or the
    message of the first [except] clause. *)
Theorem call_tool_returns_one_text_item (e : env) (name : string)
    (arguments : pyval) (w : world) :
  exists t w',
    call_tool e name arguments w = (inr [ {| type := "text"; text := t |} ], w')
    /\ ((exists key v, (key = "tables" \/ key = "info")
                       /\ Json.dumps (PDict [(PStr key, v)]) = inr t)
        \/ (exists x, t = "Epsilla API error: " ++ exn_str x)).
Proof.
  rewrite call_tool_enters.
  destruct (call_tool_body_result e name arguments (entered e w))
    as [key v t evs w' Hkey Hd _ _ _ | x evs w' _ _ _].
  - exists t, w'. split; [reflexivity |]. left. now exists key, v.
  - exists (api_error_text x), w'. split; [reflexivity |]. right. now exists x.
Qed.

(** C5, as amended.  For every argument bag passed to [create_table]:
    when it is not a dict or has no ["name"] key, the result is the one
    text item [Epsilla API error: Missing required parameter: 'name'] and
    no remote operation is called; when it is a dict with a ["name"] key,
    the remote creation is called with the value bound to the key,
    whatever that value is. *)
Theorem create_table_checks_presence_only (e : env) (arguments : pyval) (w : world) :
  exists items w',
    call_tool e "create_table" arguments w = (inr items, w')
    /\ if (isinstance_dict arguments && dict_contains "name" arguments)%bool
       then exists table,
              getitem arguments "name" = inr table
              /\ remote_calls (trace w')
                 = (remote_calls (trace w) ++ [EvCreateTable table])%list
       else items = [ {| type := "text";
                         text := "Epsilla API error: Missing required parameter: 'name'" |} ]
            /\ remote_calls (trace w') = remote_calls (trace w).
Proof.
  rewrite call_tool_enters.
  destruct (isinstance_dict arguments && dict_contains "name" arguments)%bool eqn:Hok.
  - destruct (getitem_of_contains arguments "name" Hok) as [table Hget].
    pose proof (create_table_forwarded e arguments table (entered e w) Hok Hget) as Hrem.
    destruct (call_tool_body_result e "create_table" arguments (entered e w));
      cbn [snd] in Hrem; eexists; eexists; (split; [reflexivity |]);
      exists table; (split; [exact Hget |]);
      rewrite Hrem, remote_calls_entered; reflexivity.
  - rewrite (create_table_rejected e arguments (entered e w) Hok).
    eexists; eexists. split; [reflexivity |]. split; [reflexivity |].
    simpl. rewrite !remote_calls_app. simpl.
    now rewrite remote_calls_sleep_events, !app_nil_r.
Qed.

(** C5, as stated, fails.  A bag whose ["name"] entry is the empty
    string, and one whose entry is the number 5, are not refused: the
    remote creation is called with that value and the answer of the
    remote service comes back as a JSON text. *)
Lemma create_table_empty_or_numeric_name_reaches_remote :
  (exists t,
      call_tool (answering 0) "create_table" (PDict [(PStr "name", PStr "")]) (started 0)
      = (inr [ {| type := "text"; text := t |} ],
         {| cells := {| last_reset := 0; calls_made := 1 |};
            trace := [EvCreateTable (PStr "")] |})
      /\ Json.dumps (PDict [(PStr "info", PDict [(PStr "message", PStr "ok")])]) = inr t)
  /\ remote_calls
       (trace (snd (call_tool (answering 0) "create_table"
                      (PDict [(PStr "name", PInt 5)]) (started 0))))
     = [EvCreateTable (PInt 5)].
Proof.
  split; [eexists; split; reflexivity | reflexivity].
Qed.

(** C6 (the code at the failing input).  The catalog lists [list_dbs]
    and [create_table] and touches nothing; the dispatcher refuses
    [list_dbs] as an unknown tool without calling the remote service,
    and serves [list_tables], which the catalog does not list. *)
Lemma catalog_and_dispatcher_disagree (e : env) (arguments : pyval) (w : world) :
  (exists tools, list_tools w = (inr tools, w)
                 /\ map name tools = ["list_dbs"; "create_table"])
  /\ (exists w', call_tool e "list_dbs" arguments w
                 = (inr [ {| type := "text";
                             text := "Epsilla API error: Unknown tool: list_dbs" |} ], w')
                 /\ remote_calls (trace w') = remote_calls (trace w))
  /\ remote_calls (trace (snd (call_tool e "list_tables" arguments w)))
     = (remote_calls (trace w) ++ [EvListTables])%list.
Proof.
  split; [| split].
  - eexists. split; reflexivity.
  - rewrite call_tool_enters.
    rewrite (unknown_tool_body e "list_dbs" arguments (entered e w));
      [| discriminate | discriminate].
    eexists. split; [reflexivity |]. simpl.
    rewrite !remote_calls_app. simpl.
    now rewrite remote_calls_sleep_events, !app_nil_r.
  - rewrite call_tool_enters. run_body.
    destruct (list_tables_answer e) as [x | tables]; simpl.
    + rewrite !remote_calls_app. simpl.
      now rewrite remote_calls_sleep_events, !app_nil_r.
    + destruct (Json.dumps (PDict [(PStr "tables", tables)])); simpl;
        rewrite !remote_calls_app; simpl;
        now rewrite remote_calls_sleep_events, !app_nil_r.
Qed.

(** C8.  For every tool name other than [list_tables] and
    [create_table], [call_tool] returns the one text item
    [Epsilla API error: Unknown tool: <name>] and calls no remote
    operation. *)
Theorem unknown_tool_is_reported (e : env) (name : string) (arguments : pyval)
    (w : world) :
  name <> "list_tables" -> name <> "create_table" ->
  exists w',
    call_tool e name arguments w
    = (inr [ {| type := "text";
                text := "Epsilla API error: " ++ "Unknown tool" ++ ": " ++ name |} ], w')
    /\ remote_calls (trace w') = remote_calls (trace w).
Proof.
  intros H1 H2. rewrite call_tool_enters.
  rewrite (unknown_tool_body e name arguments (entered e w) H1 H2).
  eexists. split; [reflexivity |]. simpl.
  rewrite !remote_calls_app. simpl.
  now rewrite remote_calls_sleep_events, !app_nil_r.
Qed.

Lemma unknown_tool_is_reported_witness :
  exists w',
    call_tool (answering 0) "drop_table" (PDict []) (started 0)
    = (inr [ {| type := "text";
                text := "Epsilla API error: " ++ "Unknown tool" ++ ": " ++ "drop_table" |} ],
       w')
    /\ remote_calls (trace w') = remote_calls (trace (started 0)).
Proof.
  apply (unknown_tool_is_reported (answering 0) "drop_table" (PDict []) (started 0));
    discriminate.
Defined.

(** C9 (the code at the failing input).  Whatever exception [x] the
    remote service raises, the text returned for the failed remote call
    and the text returned for a missing parameter open with the same
    words, [Epsilla API error: ], followed by the message of the
    exception; nothing in the text tells the two kinds apart. *)
Lemma remote_and_validation_errors_look_alike (t : Z) (x : exn) (w : world) :
  exists w1 w2 w3,
    call_tool (failing t x) "list_tables" (PDict []) w
    = (inr [ {| type := "text"; text := "Epsilla API error: " ++ exn_str x |} ], w1)
    /\ call_tool (failing t x) "create_table" (PDict [(PStr "name", PStr "docs")]) w
       = (inr [ {| type := "text"; text := "Epsilla API error: " ++ exn_str x |} ], w2)
    /\ call_tool (failing t x) "create_table" (PDict []) w
       = (inr [ {| type := "text";
                   text := "Epsilla API error: "
                           ++ "Missing required parameter: 'name'" |} ], w3).
Proof.
  rewrite !call_tool_enters. do 3 eexists. repeat split; reflexivity.
Qed.


End DispatchFacts.

(* ================================================================== *)
(** * Further properties of the rate limiter *)

Module LimiterMore.
Import RateLimit RateLimitFacts.

(** Every way one invocation passes lines 74-89. *)
Lemma guard_cases (calls period now woke : Z) (st : limiter) :
  (period < now - last_reset st
   /\ (0 < calls \/ period <= 0)
   /\ guard calls period now woke st
      = ({| last_reset := now; calls_made := 1 |}, None))
  \/ (period < now - last_reset st /\ calls <= 0 /\ 0 < period
      /\ guard calls period now woke st
         = ({| last_reset := woke; calls_made := 1 |}, Some period))
  \/ (now - last_reset st <= period
      /\ (calls_made st < calls \/ period <= now - last_reset st)
      /\ guard calls period now woke st
         = ({| last_reset := last_reset st; calls_made := calls_made st + 1 |}, None))
  \/ (now - last_reset st < period /\ calls <= calls_made st
      /\ guard calls period now woke st
         = ({| last_reset := woke; calls_made := 1 |},
            Some (period - (now - last_reset st)))).
Proof.
  unfold guard, after_checks.
  destruct (window_check_cases period now st) as [[Hgt ->] | [Hle ->]].
  - destruct (budget_check_cases calls period now woke
                {| last_reset := now; calls_made := 0 |})
      as [[H ->] | [[H [Hw ->]] | [H [Hw ->]]]]; simpl in *.
    + left. repeat split; auto; lia.
    + left. repeat split; auto; lia.
    + right; left. replace (period - (now - now)) with period by lia.
      repeat split; auto; lia.
  - destruct (budget_check_cases calls period now woke st)
      as [[H ->] | [[H [Hw ->]] | [H [Hw ->]]]]; simpl in *.
    + right; right; left. repeat split; auto; lia.
    + right; right; left. repeat split; auto; lia.
    + right; right; right. repeat split; auto; lia.
Qed.

(** X1 is [RateLimitFacts.run_within_budget]; a run of a limiter of 2
    calls per 10: two calls at 1 and 2, a third at 3 that sleeps till 10,
    a fourth at 25 after the window has expired. *)
Lemma run_within_budget_witness :
  Forall (fun s => calls_made (s_checked s) < 2 /\ calls_made (s_counted s) <= 2)
    (run 2 10 (decorator 0)
       [ {| t_now := 1; t_woke := 1 |}; {| t_now := 2; t_woke := 2 |};
         {| t_now := 3; t_woke := 10 |}; {| t_now := 25; t_woke := 25 |} ]).
Proof.
  apply (run_within_budget 2 10
           [ {| t_now := 1; t_woke := 1 |}; {| t_now := 2; t_woke := 2 |};
             {| t_now := 3; t_woke := 10 |}; {| t_now := 25; t_woke := 25 |} ]).
  - lia.
  - simpl. repeat split; lia.
Defined.

(** X2.  With a positive budget, an invocation sleeps exactly when the
    counter has reached the budget and less than a full period has
    passed since the window start it finds. *)
Theorem sleeps_iff_budget_spent_in_window (calls period now woke : Z) (st : limiter) :
  0 < calls ->
  ((exists wait_time, snd (guard calls period now woke st) = Some wait_time)
   <-> (calls <= calls_made st /\ now - last_reset st < period)).
Proof.
  intros Hc.
  destruct (guard_cases calls period now woke st)
    as [[H1 [H2 ->]] | [[H1 [H2 [H3 ->]]] | [[H1 [H2 ->]] | [H1 [H2 ->]]]]]; simpl.
  - split; [intros [d Hd]; discriminate | lia].
  - lia.
  - split; [intros [d Hd]; discriminate | lia].
  - split; [intros _; lia | intros _; eauto].
Qed.

Lemma sleeps_iff_budget_spent_in_window_witness :
  (exists wait_time,
      snd (guard 10 1000000 400000 1000000 {| last_reset := 0; calls_made := 10 |})
      = Some wait_time)
  <-> (10 <= calls_made {| last_reset := 0; calls_made := 10 |}
       /\ 400000 - last_reset {| last_reset := 0; calls_made := 10 |} < 1000000).
Proof.
  apply (sleeps_iff_budget_spent_in_window 10 1000000 400000 1000000
           {| last_reset := 0; calls_made := 10 |}).
  lia.
Defined.

(** X3.  With a positive budget, an invocation that sleeps asks for
    exactly the time left in the window it found; on waking it restarts
    the window at the reading made then and is the first call of that
    window.  The wait is at most one period when the clock is not behind
    the window start, and more than one period when it is. *)
Theorem sleep_is_the_rest_of_the_window (calls period now woke wait_time : Z)
    (st st' : limiter) :
  0 < calls ->
  guard calls period now woke st = (st', Some wait_time) ->
  wait_time = period - (now - last_reset st)
  /\ 0 < wait_time
  /\ st' = {| last_reset := woke; calls_made := 1 |}
  /\ (last_reset st <= now -> wait_time <= period)
  /\ (now < last_reset st -> period < wait_time).
Proof.
  intros Hc.
  destruct (guard_cases calls period now woke st)
    as [[H1 [H2 ->]] | [[H1 [H2 [H3 ->]]] | [[H1 [H2 ->]] | [H1 [H2 ->]]]]];
    intros E; inversion E; subst; try lia.
  repeat split; lia.
Qed.

Lemma sleep_is_the_rest_of_the_window_witness :
  400000 = 1000000 - (600000 - last_reset {| last_reset := 0; calls_made := 10 |})
  /\ 0 < 400000
  /\ {| last_reset := 1000003; calls_made := 1 |}
     = {| last_reset := 1000003; calls_made := 1 |}
  /\ (last_reset {| last_reset := 0; calls_made := 10 |} <= 600000 -> 400000 <= 1000000)
  /\ (600000 < last_reset {| last_reset := 0; calls_made := 10 |} -> 1000000 < 400000).
Proof.
  apply (sleep_is_the_rest_of_the_window 10 1000000 600000 1000003 400000
           {| last_reset := 0; calls_made := 10 |}
           {| last_reset := 1000003; calls_made := 1 |}).
  - lia.
  - reflexivity.
Defined.

(** X4.  An invocation that does not sleep either finds the window
    expired (more than a period since its start), and then opens a new
    one at its own reading as call number 1, or leaves the window start
    alone and adds one to the counter. *)
Theorem unsuspended_call_counts_or_restarts (calls period now woke : Z)
    (st st' : limiter) :
  guard calls period now woke st = (st', None) ->
  st' = if now - last_reset st >? period
        then {| last_reset := now; calls_made := 1 |}
        else {| last_reset := last_reset st; calls_made := calls_made st + 1 |}.
Proof.
  destruct (guard_cases calls period now woke st)
    as [[H1 [H2 ->]] | [[H1 [H2 [H3 ->]]] | [[H1 [H2 ->]] | [H1 [H2 ->]]]]];
    intros E; inversion E; subst;
    destruct (Z.gtb_spec (now - last_reset st) period); try reflexivity; lia.
Qed.

Lemma unsuspended_call_counts_or_restarts_witness :
  {| last_reset := 2500000; calls_made := 1 |}
  = if 2500000 - last_reset {| last_reset := 0; calls_made := 7 |} >? 1000000
    then {| last_reset := 2500000; calls_made := 1 |}
    else {| last_reset := last_reset {| last_reset := 0; calls_made := 7 |};
            calls_made := calls_made {| last_reset := 0; calls_made := 7 |} + 1 |}.
Proof.
  apply (unsuspended_call_counts_or_restarts 10 1000000 2500000 2500000
           {| last_reset := 0; calls_made := 7 |}
           {| last_reset := 2500000; calls_made := 1 |}).
  reflexivity.
Defined.

(** On an ordered clock the window start is never ahead of the clock. *)
Lemma guard_window_start_behind (calls period now woke prev : Z) (st : limiter) :
  last_reset st <= prev -> prev <= now -> now <= woke ->
  last_reset (fst (guard calls period now woke st)) <= woke.
Proof.
  intros H1 H2 H3.
  destruct (guard_cases calls period now woke st)
    as [[_ [_ ->]] | [[_ [_ [_ ->]]] | [[_ [_ ->]] | [_ [_ ->]]]]]; simpl; lia.
Qed.

(** X5.  On a clock that never runs backwards, from a window start that
    is not ahead of it, every sleep of a run is positive and lasts at
    most one period, whatever the budget. *)
Theorem sleeps_bounded_on_ordered_clock (calls period prev : Z) (st : limiter)
    (ticks : list tick) :
  last_reset st <= prev ->
  ordered prev ticks ->
  Forall (bounded_sleep period) (run calls period st ticks).
Proof.
  revert prev st. induction ticks as [| tk ticks IH]; intros prev st Hst Hord.
  - constructor.
  - destruct Hord as [H1 [H2 Hord]].
    pose proof (guard_window_start_behind calls period (t_now tk) (t_woke tk)
                  prev st Hst H1 H2) as Hnext.
    pose proof (guard_cases calls period (t_now tk) (t_woke tk) st) as Hg.
    cbn [run]. unfold guard in *.
    destruct (after_checks calls period (t_now tk) (t_woke tk) st) as [st3 slept].
    simpl in Hnext. constructor.
    + unfold bounded_sleep; simpl.
      destruct Hg as [[_ [_ E]] | [[_ [_ [Hp E]]] | [[_ [_ E]] | [Hlt [_ E]]]]];
        inversion E; subst; simpl; lia.
    + exact (IH (t_woke tk) (count_call st3) Hnext Hord).
Qed.

Lemma sleeps_bounded_on_ordered_clock_witness :
  Forall (bounded_sleep 10)
    (run 2 10 (decorator 0)
       [ {| t_now := 1; t_woke := 1 |}; {| t_now := 2; t_woke := 2 |};
         {| t_now := 3; t_woke := 11 |}; {| t_now := 12; t_woke := 12 |} ]).
Proof.
  apply (sleeps_bounded_on_ordered_clock 2 10 0 (decorator 0)
           [ {| t_now := 1; t_woke := 1 |}; {| t_now := 2; t_woke := 2 |};
             {| t_now := 3; t_woke := 11 |}; {| t_now := 12; t_woke := 12 |} ]).
  - simpl. lia.
  - simpl. repeat split; lia.
Defined.

End LimiterMore.

(* ================================================================== *)
(** * Further properties of the configuration and of [validate_db_id] *)

Module ConfigMore.
Import Config.

(** X7.  When the start-up checks pass, the three identifiers handed on
    are the values read from the environment (or their placeholders) and
    none of them is the empty string. *)
Theorem loaded_identifiers_are_nonempty (e : environ) (s : settings) :
  load e = inr s ->
  (EPSILLA_PROJECT_ID s = getenv e "EPSILLA_PROJECT_ID" "Your-Epsilla-Project-ID"
   /\ EPSILLA_API_KEY s = getenv e "EPSILLA_API_KEY" "Your-Epsilla-API-Key"
   /\ EPSILLA_DB_ID s = getenv e "EPSILLA_DB_ID" "Your-Epsilla-DB-ID")
  /\ EPSILLA_PROJECT_ID s <> EmptyString
  /\ EPSILLA_API_KEY s <> EmptyString
  /\ EPSILLA_DB_ID s <> EmptyString.
Proof.
  unfold load.
  destruct (getenv e "EPSILLA_PROJECT_ID" "Your-Epsilla-Project-ID") as [| c1 s1];
    simpl; [discriminate |].
  destruct (getenv e "EPSILLA_API_KEY" "Your-Epsilla-API-Key") as [| c2 s2];
    simpl; [discriminate |].
  destruct (getenv e "EPSILLA_DB_ID" "Your-Epsilla-DB-ID") as [| c3 s3];
    simpl; [discriminate |].
  intros E. inversion E; subst; simpl. repeat split; discriminate.
Qed.

Lemma loaded_identifiers_are_nonempty_witness :
  (EPSILLA_PROJECT_ID {| EPSILLA_PROJECT_ID := "p1";
                          EPSILLA_API_KEY := "Your-Epsilla-API-Key";
                          EPSILLA_DB_ID := "d1" |}
   = getenv [("EPSILLA_DB_ID", "d1"); ("EPSILLA_PROJECT_ID", "p1")]
       "EPSILLA_PROJECT_ID" "Your-Epsilla-Project-ID"
   /\ EPSILLA_API_KEY {| EPSILLA_PROJECT_ID := "p1";
                         EPSILLA_API_KEY := "Your-Epsilla-API-Key";
                         EPSILLA_DB_ID := "d1" |}
      = getenv [("EPSILLA_DB_ID", "d1"); ("EPSILLA_PROJECT_ID", "p1")]
          "EPSILLA_API_KEY" "Your-Epsilla-API-Key"
   /\ EPSILLA_DB_ID {| EPSILLA_PROJECT_ID := "p1";
                       EPSILLA_API_KEY := "Your-Epsilla-API-Key";
                       EPSILLA_DB_ID := "d1" |}
      = getenv [("EPSILLA_DB_ID", "d1"); ("EPSILLA_PROJECT_ID", "p1")]
          "EPSILLA_DB_ID" "Your-Epsilla-DB-ID")
  /\ EPSILLA_PROJECT_ID {| EPSILLA_PROJECT_ID := "p1";
                           EPSILLA_API_KEY := "Your-Epsilla-API-Key";
                           EPSILLA_DB_ID := "d1" |} <> EmptyString
  /\ EPSILLA_API_KEY {| EPSILLA_PROJECT_ID := "p1";
                        EPSILLA_API_KEY := "Your-Epsilla-API-Key";
                        EPSILLA_DB_ID := "d1" |} <> EmptyString
  /\ EPSILLA_DB_ID {| EPSILLA_PROJECT_ID := "p1";
                      EPSILLA_API_KEY := "Your-Epsilla-API-Key";
                      EPSILLA_DB_ID := "d1" |} <> EmptyString.
Proof.
  apply (loaded_identifiers_are_nonempty
           [("EPSILLA_DB_ID", "d1"); ("EPSILLA_PROJECT_ID", "p1")]).
  reflexivity.
Defined.

End ConfigMore.

Module ValidateFacts.
Import Validate.

(** X8.  [validate_db_id] answers [True] exactly on a [str] that is not
    empty: [None], numbers, containers and other objects, empty or not,
    are all refused, whatever truth value their class gives them. *)
Theorem validate_db_id_iff_nonempty_str (obj_truth : string -> string -> bool)
    (db_id : pyval) :
  validate_db_id obj_truth db_id = true
  <-> exists c s, db_id = PStr (String c s).
Proof.
  unfold validate_db_id, py_and. split.
  - destruct db_id as [| b | z | lit | s | l | l | items | cls str_]; simpl.
    + discriminate.
    + destruct b; simpl; discriminate.
    + destruct (z =? 0) eqn:E; simpl; [rewrite E |]; discriminate.
    + destruct (String.eqb lit "0.0" || String.eqb lit "-0.0")%bool eqn:E; simpl;
        [rewrite E |]; discriminate.
    + destruct s as [| c s]; simpl; [discriminate | intros _; eauto].
    + destruct l; simpl; discriminate.
    + destruct l; simpl; discriminate.
    + destruct items; simpl; discriminate.
    + destruct (obj_truth cls str_) eqn:E; simpl; [| rewrite E]; discriminate.
  - intros [c [s ->]]. reflexivity.
Qed.

End ValidateFacts.

(* ================================================================== *)
(** * Further properties of the dispatcher *)

Module DispatchMore.
Import DispatchFacts.

Lemma logs_app (tr1 tr2 : list event) :
  logs (tr1 ++ tr2) = (logs tr1 ++ logs tr2)%list.
Proof. apply filter_app. Qed.

Lemma logs_sleep_events (slept : option Z) : logs (RateLimit.sleep_events slept) = [].
Proof. destruct slept; reflexivity. Qed.

Lemma logs_of_remote (evs : list event) :
  forallb is_remote evs = true -> logs evs = [].
Proof.
  induction evs as [| ev evs IH]; simpl; [reflexivity |].
  intros H. apply andb_prop in H. destruct H as [H1 H2].
  destruct ev; try discriminate; simpl; exact (IH H2).
Qed.

(** A subscript that succeeds was made on a dict that has the key. *)
Lemma getitem_inr_contains (arguments : pyval) (key : string) (v : pyval) :
  getitem arguments key = inr v ->
  (isinstance_dict arguments && dict_contains key arguments)%bool = true.
Proof.
  destruct arguments; simpl; try discriminate.
  induction items as [| kv items IH]; simpl; [discriminate |].
  destruct (str_key_eq key (fst kv)); simpl; [reflexivity | exact IH].
Qed.

(** A bag that the check of line 144 refuses has no ["name"] to read. *)
Lemma getitem_inl_of_refused (arguments : pyval) (key : string) :
  (isinstance_dict arguments && dict_contains key arguments)%bool = false ->
  exists x, getitem arguments key = inl x.
Proof.
  destruct arguments; simpl; try (intros _; eexists; reflexivity).
  induction items as [| kv items IH]; simpl.
  - intros _. eexists; reflexivity.
  - destruct (str_key_eq key (fst kv)); simpl; [discriminate | exact IH].
Qed.

(** X10.  [list_tables] never looks at its arguments: whatever they are
    (a dict or not), the text returned is the JSON of [{tables: answer}]
    for the answer of the remote service, or [Epsilla API error: ]
    followed by the message of what the remote call or the serializer
    raised. *)
Theorem list_tables_ignores_arguments (e : env) (arguments : pyval) (w : world) :
  fst (call_tool e "list_tables" arguments w)
  = inr [ {| type := "text"; text := list_tables_text e |} ].
Proof.
  rewrite call_tool_enters. unfold list_tables_text. run_body.
  destruct (list_tables_answer e) as [x | tables]; simpl; [reflexivity |].
  destruct (Json.dumps (PDict [(PStr "tables", tables)])); reflexivity.
Qed.

(** X11.  [create_table] with a bag that binds ["name"] returns the JSON
    of [{info: resp[1]}] for the answer [resp] of the remote service to
    that name, or [Epsilla API error: ] followed by the message of what
    the remote call or the serializer raised.  The status [resp[0]] and
    every other entry of the bag play no part. *)
Theorem create_table_returns_info_only (e : env) (arguments table : pyval) (w : world) :
  getitem arguments "name" = inr table ->
  fst (call_tool e "create_table" arguments w)
  = inr [ {| type := "text"; text := create_table_text e table |} ].
Proof.
  intros Hget. pose proof (getitem_inr_contains _ _ _ Hget) as Hok.
  rewrite call_tool_enters. unfold create_table_text. run_body.
  replace (negb (isinstance_dict arguments) || negb (dict_contains "name" arguments))%bool
    with false by (rewrite <- negb_andb, Hok; reflexivity).
  simpl. rewrite Hget. simpl.
  destruct (create_table_answer e table) as [x | resp]; simpl; [reflexivity |].
  destruct (Json.dumps (PDict [(PStr "info", snd resp)])); reflexivity.
Qed.

Lemma create_table_returns_info_only_witness :
  fst (call_tool (answering 0) "create_table"
         (PDict [(PStr "owner", PInt 7); (PStr "name", PStr "docs")]) (started 0))
  = inr [ {| type := "text";
             text := create_table_text (answering 0) (PStr "docs") |} ].
Proof.
  apply (create_table_returns_info_only (answering 0)
           (PDict [(PStr "owner", PInt 7); (PStr "name", PStr "docs")])
           (PStr "docs") (started 0)).
  reflexivity.
Defined.

(** The JSON text of a one-entry object is no error message. *)
Lemma dumps_object_not_api_error (key v : pyval) (t : string) :
  Json.dumps (PDict [(key, v)]) = inr t ->
  String.prefix "Epsilla API error: " t = false.
Proof.
  unfold Json.dumps. cbn [Json.encode].
  destruct (Json.key_text key); [discriminate |].
  destruct (Json.encode 1 v); [discriminate |].
  intros H. inversion H. reflexivity.
Qed.

(** X12.  What a call logs is read off the text it returns: a call that
    returns an error text (one opening with [Epsilla API error: ]) has
    logged exactly one message, that very text, and a call that returns
    anything else has logged nothing. *)
Theorem failing_call_logs_its_text (e : env) (name : string) (arguments : pyval)
    (w : world) :
  exists t w',
    call_tool e name arguments w = (inr [ {| type := "text"; text := t |} ], w')
    /\ logs (trace w')
       = (logs (trace w)
            ++ (if String.prefix "Epsilla API error: " t then [EvLog t] else []))%list.
Proof.
  rewrite call_tool_enters.
  assert (Hent : logs (trace (entered e w)) = logs (trace w)).
  { unfold entered; simpl. now rewrite logs_app, logs_sleep_events, app_nil_r. }
  destruct (call_tool_body_result e name arguments (entered e w))
    as [key v t evs w' Hkey Hd Hev _ Htr | x evs w' Hev _ Htr].
  - exists t, w'. split; [reflexivity |].
    rewrite (dumps_object_not_api_error _ _ _ Hd).
    rewrite Htr, logs_app, (logs_of_remote _ Hev), !app_nil_r. exact Hent.
  - exists (api_error_text x), w'. split; [reflexivity |].
    replace (String.prefix "Epsilla API error: " (api_error_text x)) with true
      by (unfold api_error_text; simpl; destruct (exn_str x); reflexivity).
    rewrite Htr, !logs_app, (logs_of_remote _ Hev), Hent. reflexivity.
Qed.

(** X13.  The remote operation a call performs is decided by its input
    alone: [list_tables] lists once, [create_table] creates once with the
    value bound to ["name"] when the bag is a dict that has the key,
    and every other call reaches no remote operation; neither the clock,
    nor the limiter, nor what the remote service answers changes that. *)
Theorem remote_calls_follow_the_input (e : env) (name : string) (arguments : pyval)
    (w : world) :
  remote_calls (trace (snd (call_tool e name arguments w)))
  = (remote_calls (trace w) ++ remote_footprint name arguments)%list.
Proof.
  rewrite call_tool_enters, <- (remote_calls_entered e w).
  generalize (entered e w). clear w. intros w.
  unfold remote_footprint. run_body.
  destruct (String.eqb name "list_tables").
  - simpl. destruct (list_tables_answer e) as [x | tables]; simpl.
    + rewrite !remote_calls_app. simpl. now rewrite app_nil_r.
    + destruct (Json.dumps (PDict [(PStr "tables", tables)])); simpl;
        rewrite ?remote_calls_app; simpl; now rewrite ?app_nil_r.
  - destruct (String.eqb name "create_table").
    + destruct (isinstance_dict arguments && dict_contains "name" arguments)%bool eqn:Hok.
      * replace (negb (isinstance_dict arguments)
                 || negb (dict_contains "name" arguments))%bool
          with false by (rewrite <- negb_andb, Hok; reflexivity).
        destruct (getitem_of_contains arguments "name" Hok) as [table Hget].
        simpl. rewrite Hget. simpl.
        destruct (create_table_answer e table) as [x | resp]; simpl.
        -- rewrite !remote_calls_app. simpl. now rewrite app_nil_r.
        -- destruct (Json.dumps (PDict [(PStr "info", snd resp)])); simpl;
             rewrite ?remote_calls_app; simpl; now rewrite ?app_nil_r.
      * replace (negb (isinstance_dict arguments)
                 || negb (dict_contains "name" arguments))%bool
          with true by (rewrite <- negb_andb, Hok; reflexivity).
        destruct (getitem_inl_of_refused arguments "name" Hok) as [x ->].
        simpl. rewrite remote_calls_app. simpl. reflexivity.
    + simpl. rewrite remote_calls_app. simpl. reflexivity.
Qed.

End DispatchMore.

(* ================================================================== *)
(** * Successive calls *)

Module ServeFacts.
Import RateLimit RateLimitFacts DispatchFacts.

(** X14.  However the clock behaves, the first invocations of a limiter,
    as many as its budget allows, never sleep. *)
Theorem first_calls_never_sleep (calls period t0 : Z) (ticks : list tick) :
  Z.of_nat (List.length ticks) <= calls ->
  Forall (fun s => s_slept s = None) (run calls period (decorator t0) ticks).
Proof.
  assert (G : forall (l : list tick) (k : Z) (st : limiter),
             0 <= calls_made st <= k ->
             k + Z.of_nat (List.length l) <= calls ->
             Forall (fun s => s_slept s = None) (run calls period st l)).
  { induction l as [| tk l IH]; intros k st Hk Hlen; [constructor |].
    cbn [List.length] in Hlen. rewrite Nat2Z.inj_succ in Hlen.
    pose proof (LimiterMore.guard_cases calls period (t_now tk) (t_woke tk) st) as Hg.
    cbn [run]. unfold guard in Hg.
    destruct (after_checks calls period (t_now tk) (t_woke tk) st) as [st3 slept].
    assert (Hs : slept = None /\ 0 <= calls_made (count_call st3) <= k + 1).
    { destruct Hg as [[_ [_ E]] | [[_ [Hc [_ E]]] | [[_ [_ E]] | [_ [Hc E]]]]];
        try lia; injection E; intros; subst slept; simpl; split; auto; lia. }
    destruct Hs as [-> Hk']. constructor; [reflexivity |].
    apply (IH (k + 1)); [exact Hk' | lia]. }
  intros Hlen. apply (G ticks 0 (decorator t0)); simpl; lia.
Qed.

Lemma first_calls_never_sleep_witness :
  Forall (fun s => s_slept s = None)
    (run 3 1000 (decorator 500)
       [ {| t_now := 700; t_woke := 0 |}; {| t_now := 20; t_woke := 0 |};
         {| t_now := 5000; t_woke := 0 |} ]).
Proof.
  apply (first_calls_never_sleep 3 1000 500
           [ {| t_now := 700; t_woke := 0 |}; {| t_now := 20; t_woke := 0 |};
             {| t_now := 5000; t_woke := 0 |} ]).
  simpl. lia.
Defined.

Lemma sleeps_app (tr1 tr2 : list event) :
  sleeps (tr1 ++ tr2) = (sleeps tr1 ++ sleeps tr2)%list.
Proof. apply filter_app. Qed.

Lemma sleeps_sleep_events (slept : option Z) :
  sleeps (sleep_events slept) = sleep_events slept.
Proof. destruct slept; reflexivity. Qed.

Lemma sleeps_of_remote (evs : list event) :
  forallb is_remote evs = true -> sleeps evs = [].
Proof.
  induction evs as [| ev evs IH]; simpl; [reflexivity |].
  intros H. apply andb_prop in H. destruct H as [H1 H2].
  destruct ev; try discriminate; simpl; exact (IH H2).
Qed.

(** One call: one step of the limiter, and no sleep but the limiter's. *)
Lemma call_tool_step (e : env) (name : string) (arguments : pyval) (w : world) :
  cells (snd (call_tool e name arguments w))
  = fst (guard 10 1000000 (now e) (woke e) (cells w))
  /\ sleeps (trace (snd (call_tool e name arguments w)))
     = (sleeps (trace w)
          ++ sleep_events (snd (guard 10 1000000 (now e) (woke e) (cells w))))%list.
Proof.
  rewrite call_tool_enters.
  assert (Hent : sleeps (trace (entered e w))
                 = (sleeps (trace w)
                      ++ sleep_events
                           (snd (guard 10 1000000 (now e) (woke e) (cells w))))%list).
  { unfold entered; simpl. now rewrite sleeps_app, sleeps_sleep_events. }
  destruct (call_tool_body_result e name arguments (entered e w))
    as [key v t evs w' Hkey Hd Hev Hc Htr | x evs w' Hev Hc Htr]; simpl.
  - split; [exact Hc |].
    now rewrite Htr, sleeps_app, (sleeps_of_remote _ Hev), app_nil_r.
  - split; [exact Hc |].
    rewrite Htr, !sleeps_app, (sleeps_of_remote _ Hev). simpl.
    now rewrite app_nil_r.
Qed.

(** X15.  Calls served one after the other drive the limiter as a run
    over their clock readings does: the cells left and the sleeps made
    depend on the readings alone, not on the tool names, the arguments
    or the answers of the remote service. *)
Theorem serve_drives_the_limiter (reqs : list request) (w : world) :
  List.length (fst (serve reqs w)) = List.length reqs
  /\ cells (snd (serve reqs w))
     = cells_after 10 1000000 (cells w) (map tick_of reqs)
  /\ sleeps (trace (snd (serve reqs w)))
     = (sleeps (trace w)
          ++ sleeps_of (run 10 1000000 (cells w) (map tick_of reqs)))%list.
Proof.
  revert w. induction reqs as [| r reqs IH]; intros w.
  - simpl. repeat split. now rewrite app_nil_r.
  - destruct (call_tool_step (r_env r) (r_name r) (r_arguments r) w)
      as [Hcells Hsl].
    cbn [serve map run cells_after fold_left tick_of t_now t_woke].
    destruct (call_tool (r_env r) (r_name r) (r_arguments r) w) as [o w1].
    simpl in Hcells, Hsl.
    destruct (IH w1) as [Hlen [Hc Hs]].
    destruct (serve reqs w1) as [os w2]. simpl in *.
    unfold guard in *.
    destruct (after_checks 10 1000000 (now (r_env r)) (woke (r_env r)) (cells w))
      as [st3 slept].
    simpl in *. rewrite Hcells in Hc, Hs.
    repeat split.
    + now rewrite Hlen.
    + exact Hc.
    + rewrite Hs, Hsl. unfold sleeps_of. simpl. now rewrite <- app_assoc.
Qed.

End ServeFacts.

(* ================================================================== *)
(** * The catalog and the check of line 144 *)

Module CatalogFacts.
Import DispatchFacts.

Lemma not_self_app (l : list event) (ev : event) : l <> (l ++ [ev])%list.
Proof.
  intros H. apply (f_equal (@List.length event)) in H.
  rewrite length_app in H. simpl in H. lia.
Qed.

(** X16.  For the tool the catalog lists as [create_table], the keys its
    schema requires are what [call_tool] checks on a dict: called with a
    dict, [call_tool] performs the remote creation if and only if the
    dict has every required key. *)
Theorem create_table_schema_matches_check (e : env) (w : world)
    (tools : list Tool) (t : Tool) (arguments : pyval) :
  fst (list_tools w) = inr tools ->
  In t tools ->
  name t = "create_table" ->
  isinstance_dict arguments = true ->
  (has_required (inputSchema t) arguments = true
   <-> exists table,
       remote_calls (trace (snd (call_tool e (name t) arguments w)))
       = (remote_calls (trace w) ++ [EvCreateTable table])%list).
Proof.
  intros Htools Hin Hname Hdict. simpl in Htools. inversion Htools; subst tools.
  destruct Hin as [<- | [<- | []]]; [discriminate Hname |].
  unfold has_required. cbn [name inputSchema].
  match goal with
  | |- context [schema_required ?schema] =>
      change (schema_required schema) with ("name" :: nil)
  end.
  cbn [forallb]. rewrite andb_true_r, call_tool_enters.
  destruct (dict_contains "name" arguments) eqn:Hc.
  - assert (Hok : (isinstance_dict arguments && dict_contains "name" arguments)%bool = true)
      by (rewrite Hdict, Hc; reflexivity).
    destruct (getitem_of_contains arguments "name" Hok) as [table Hget].
    split; [intros _ | reflexivity]. exists table.
    rewrite (create_table_forwarded e arguments table (entered e w) Hok Hget).
    now rewrite remote_calls_entered.
  - assert (Hok : (isinstance_dict arguments && dict_contains "name" arguments)%bool = false)
      by (rewrite Hdict, Hc; reflexivity).
    rewrite (create_table_rejected e arguments (entered e w) Hok).
    split; [discriminate |]. intros [table H]. exfalso.
    cbn [snd trace] in H.
    rewrite remote_calls_app, remote_calls_entered in H. simpl in H.
    rewrite app_nil_r in H.
    exact (not_self_app _ _ H).
Qed.

Lemma create_table_schema_matches_check_witness :
  has_required
    (inputSchema
       {| name := "create_table";
          description := "Create a new table in Epsilla for storing documents";
          inputSchema :=
            PDict [ (PStr "type", PStr "object");
                    (PStr "properties",
                     PDict [ (PStr "name",
                              PDict [ (PStr "type", PStr "string");
                                      (PStr "description",
                                       PStr "Name of the table") ]) ]);
                    (PStr "required", PList [PStr "name"]) ] |})
    (PDict [(PStr "name", PStr "docs")]) = true
  <-> exists table,
      remote_calls
        (trace (snd (call_tool (answering 0)
                       (name
                          {| name := "create_table";
                             description :=
                               "Create a new table in Epsilla for storing documents";
                             inputSchema :=
                               PDict [ (PStr "type", PStr "object");
                                       (PStr "properties",
                                        PDict [ (PStr "name",
                                                 PDict [ (PStr "type", PStr "string");
                                                         (PStr "description",
                                                          PStr "Name of the table") ]) ]);
                                       (PStr "required", PList [PStr "name"]) ] |})
                       (PDict [(PStr "name", PStr "docs")]) (started 0))))
      = (remote_calls (trace (started 0)) ++ [EvCreateTable table])%list.
Proof.
  apply (create_table_schema_matches_check (answering 0) (started 0)
           [ {| name := "list_dbs";
                description := "List all dbs you have access to";
                inputSchema :=
                  PDict [ (PStr "type", PStr "object");
                          (PStr "properties", PDict []);
                          (PStr "required", PList []) ] |};
             {| name := "create_table";
                description := "Create a new table in Epsilla for storing documents";
                inputSchema :=
                  PDict [ (PStr "type", PStr "object");
                          (PStr "properties",
                           PDict [ (PStr "name",
                                    PDict [ (PStr "type", PStr "string");
                                            (PStr "description",
                                             PStr "Name of the table") ]) ]);
                          (PStr "required", PList [PStr "name"]) ] |} ]
           {| name := "create_table";
              description := "Create a new table in Epsilla for storing documents";
              inputSchema :=
                PDict [ (PStr "type", PStr "object");
                        (PStr "properties",
                         PDict [ (PStr "name",
                                  PDict [ (PStr "type", PStr "string");
                                          (PStr "description",
                                           PStr "Name of the table") ]) ]);
                        (PStr "required", PList [PStr "name"]) ] |}
           (PDict [(PStr "name", PStr "docs")])).
  - reflexivity.
  - right; left; reflexivity.
  - reflexivity.
  - reflexivity.
Defined.

End CatalogFacts.

(* ================================================================== *)
(** * The dispatcher and the exceptions that are no [Exception] *)

Module SignalsFacts.

Ltac run_signals :=
  unfold Signals.call_tool, Signals.wrapper, Signals.call_tool_body,
    Signals.try_except, Signals.try_block, Signals.dispatch,
    Signals.db_list_tables, Signals.db_create_table, Signals.api_error_clause,
    Signals.logger_error, Signals.bind, Signals.lift, Signals.lift_outcome,
    Signals.ret, Signals.raise, Signals.emit, Signals.handle,
    Signals.isinstance_Exception, Signals.str.

(** On a remote service that raises instances of [Exception] only, the
    two embeddings of [call_tool] agree: same result, same final world. *)
Lemma call_tool_of_env (e : env) (name : string) (arguments : pyval) (w : world) :
  Signals.call_tool (of_env e) name arguments w
  = (of_outcome (fst (call_tool e name arguments w)),
     snd (call_tool e name arguments w)).
Proof.
  run_signals.
  unfold call_tool, RateLimit.wrapper, call_tool_body, try_except, try_block,
    dispatch, db_list_tables, db_create_table, api_error_clause, logger_error,
    bind, lift, ret, raise, emit, handle, isinstance_Exception, of_env, of_outcome.
  cbn [Signals.now Signals.woke Signals.list_tables_answer
         Signals.create_table_answer].
  destruct (RateLimit.guard 10 1000000 (now e) (woke e) (cells w)) as [st slept].
  destruct (String.eqb name "list_tables").
  - simpl. destruct (list_tables_answer e) as [x | tables]; simpl; [reflexivity |].
    destruct (Json.dumps (PDict [(PStr "tables", tables)])); reflexivity.
  - destruct (String.eqb name "create_table"); [| reflexivity].
    destruct (negb (isinstance_dict arguments)
              || negb (dict_contains "name" arguments))%bool; [reflexivity |].
    simpl. destruct (getitem arguments "name") as [x | table]; simpl; [reflexivity |].
    destruct (create_table_answer e table) as [x | resp]; simpl; [reflexivity |].
    destruct (Json.dumps (PDict [(PStr "info", snd resp)])); reflexivity.
Qed.



End SignalsFacts.
